(** * Multi-Bot Platform: the deployment orchestrator and its container
      runtime adapter, embedded from [backend/docker_manager.py] and
      [backend/main.py].

    Python integers are [Z]; Python [str] values are [string]; the
    dictionaries of the Docker daemon (containers and images by name) and
    of the file system (files by path) are [gmap]s and [gset]s.  Code that
    raises and catches exceptions runs in a small state-and-exception
    monad, so that the state reached when an exception escapes a [try]
    block is the state the handler sees, as in Python. *)

From Stdlib Require Import ZArith String Ascii List.
From stdpp Require Import base gmap strings list pretty.

Local Open Scope string_scope.
Local Open Scope Z_scope.
Local Open Scope list_scope.

(** ** Python string helpers *)

(** [str(i)] for an [int]: canonical decimal, with a leading minus sign
    for negative numbers. *)
Definition str (i : Z) : string := pretty i.

(** [sep.join(parts)]. *)
Definition join (sep : string) (parts : list string) : string :=
  String.concat sep parts.

(** [len(s)]. *)
Definition len (s : string) : Z := Z.of_nat (String.length s).

Definition nl : string := String "010"%char EmptyString.
Definition dquote : string := String "034"%char EmptyString.

(** [c.isspace()] on the ASCII range: TAB, LF, VT, FF, CR, the four
    separators FS, GS, RS, US, and the space. *)
Definition isspace (c : ascii) : bool :=
  let n := N_of_ascii c in
  ((9 <=? n) && (n <=? 13) || (28 <=? n) && (n <=? 32))%N.

(** [s.lstrip()], [s.rstrip()], [s.strip()]. *)
Fixpoint lstrip (s : string) : string :=
  match s with
  | String c r => if isspace c then lstrip r else s
  | EmptyString => EmptyString
  end.

Fixpoint rstrip (s : string) : string :=
  match s with
  | String c r =>
      match rstrip r with
      | EmptyString => if isspace c then EmptyString else String c EmptyString
      | r' => String c r'
      end
  | EmptyString => EmptyString
  end.

Definition strip (s : string) : string := rstrip (lstrip s).

(** [s.split()]: the maximal runs of non-space characters, in order.
    [cur] is the word being read, if any. *)
Fixpoint split_from (cur : option string) (s : string) : list string :=
  match s with
  | EmptyString => match cur with Some w => [w] | None => [] end
  | String c r =>
      if isspace c then
        match cur with
        | Some w => w :: split_from None r
        | None => split_from None r
        end
      else
        split_from (Some (default EmptyString cur +:+ String c EmptyString)) r
  end.

Definition split (s : string) : list string := split_from None s.

(** Truthiness of a [str] and of an [Optional[str]]. *)
Definition truthy (s : string) : bool :=
  match s with EmptyString => false | _ => true end.

Definition truthy_opt (o : option string) : bool :=
  match o with Some s => truthy s | None => false end.

(** An [Optional[str]] inside an f-string. *)
Definition fmt_opt (o : option string) : string := default "None" o.

(** ** [os.path] on POSIX paths *)

Definition starts_with_slash (s : string) : bool :=
  match s with String "/" _ => true | _ => false end.

Fixpoint ends_with_slash (s : string) : bool :=
  match s with
  | EmptyString => false
  | String c EmptyString => bool_decide (c = "/"%char)
  | String _ r => ends_with_slash r
  end.

(** [os.path.join(a, b)]. *)
Definition os_path_join (a b : string) : string :=
  if starts_with_slash b then b
  else if negb (truthy a) || ends_with_slash a then a +:+ b
  else a +:+ "/" +:+ b.

(** Splits at the last slash: the head keeps the slash. *)
Fixpoint rsplit_slash (s : string) : option (string * string) :=
  match s with
  | EmptyString => None
  | String c r =>
      match rsplit_slash r with
      | Some (h, t) => Some (String c h, t)
      | None => if bool_decide (c = "/"%char) then Some ("/", r) else None
      end
  end.

Fixpoint all_slashes (s : string) : bool :=
  match s with
  | EmptyString => true
  | String c r => bool_decide (c = "/"%char) && all_slashes r
  end.

Fixpoint rstrip_slashes (s : string) : string :=
  match s with
  | String c r =>
      match rstrip_slashes r with
      | EmptyString =>
          if bool_decide (c = "/"%char) then EmptyString
          else String c EmptyString
      | r' => String c r'
      end
  | EmptyString => EmptyString
  end.

(** [os.path.dirname(p)]. *)
Definition os_path_dirname (p : string) : string :=
  match rsplit_slash p with
  | Some (h, _) => if all_slashes h then h else rstrip_slashes h
  | None => EmptyString
  end.

(** Whether [p] lies strictly below the directory [d]. *)
Definition below (d p : string) : bool :=
  String.prefix (if ends_with_slash d then d else d +:+ "/") p.

(** ** Exceptions and the state-and-exception monad *)

Inductive Exc :=
  | NotFound (msg : string)          (* docker.errors.NotFound *)
  | TimeoutExpired (msg : string)    (* subprocess.TimeoutExpired *)
  | HTTPException (status_code : Z) (detail : string)
  | Exception (msg : string).        (* every other Exception *)

(** [str(e)].  For [HTTPException] this is Starlette's
    ["{status_code}: {detail}"]. *)
Definition str_exc (e : Exc) : string :=
  match e with
  | NotFound m | TimeoutExpired m | Exception m => m
  | HTTPException c d => str c +:+ ": " +:+ d
  end.

Inductive Res (A : Type) : Type :=
  | Ok (a : A)
  | Raise (e : Exc).
Arguments Ok {A} a.
Arguments Raise {A} e.

Definition M (Σ A : Type) : Type := Σ → Res A * Σ.

Definition ret {Σ A} (a : A) : M Σ A := λ s, (Ok a, s).
Definition raise {Σ A} (e : Exc) : M Σ A := λ s, (Raise e, s).
Definition bind {Σ A B} (m : M Σ A) (k : A → M Σ B) : M Σ B :=
  λ s, match m s with
       | (Ok a, s') => k a s'
       | (Raise e, s') => (Raise e, s')
       end.
Definition gets {Σ A} (f : Σ → A) : M Σ A := λ s, (Ok (f s), s).
Definition modify {Σ} (f : Σ → Σ) : M Σ unit := λ s, (Ok tt, f s).

(** [try: m except Exception as e: h e] inside a larger computation. *)
Definition try_except {Σ A} (m : M Σ A) (h : Exc → M Σ A) : M Σ A :=
  λ s, match m s with
       | (Ok a, s') => (Ok a, s')
       | (Raise e, s') => h e s'
       end.

(** A function whose whole body is [try: m except Exception as e: return h e]
    cannot raise: it is a total state transformer. *)
Definition catching {Σ A} (m : M Σ A) (h : Exc → A) : Σ → A * Σ :=
  λ s, match m s with
       | (Ok a, s') => (a, s')
       | (Raise e, s') => (h e, s')
       end.

(** Calling such a total function from monadic code. *)
Definition call {Σ A} (f : Σ → A * Σ) : M Σ A :=
  λ s, let (a, s') := f s in (Ok a, s').

Declare Scope py_scope.
Delimit Scope py_scope with py.
Notation "x <- m ;; k" := (bind m (λ x, k))
  (at level 100, m at next level, right associativity) : py_scope.
Notation "m ;; k" := (bind m (λ _, k))
  (at level 100, right associativity) : py_scope.
Local Open Scope py_scope.

(** ** Naming scheme ([docker_manager.py], lines 24-31) *)

Definition get_container_name (bot_id : Z) : string := "bot_" +:+ str bot_id.

Definition get_image_name (bot_id : Z) : string :=
  "bot_" +:+ str bot_id +:+ ":latest".

(** ** The world outside the process

    The Docker daemon, the file system and the git subprocess are the
    environment of the program.  Their state is explicit; what the code
    cannot decide (a daemon or file-system call that fails, what the git
    process prints, what the build streams back) is data of the world. *)

Record Container := {
  c_image : string;
  c_status : string;                      (* container.status *)
  c_environment : gmap string string;
  c_command : list string;
  c_restart_policy : string;
  c_network_mode : string;
  c_short_id : string;
}.

(** Outcome of [subprocess.run(["git", ...], capture_output=True, ...)]. *)
Inductive GitRun :=
  | Completed (returncode : Z) (stdout stderr : string)
  | TimedOut (msg : string)
  | Crashed (msg : string).

(** Calls sent to the daemon and processes started, in order. *)
Inductive Call :=
  | ContainersGet (name : string)
  | ContainerStop (name : string) (timeout : Z)
  | ContainerRemove (name : string)
  | ContainersRun (image name : string) (environment : gmap string string)
      (command : list string) (detach : bool) (restart_policy : string)
      (network_mode : string)
  | ImagesBuild (path tag : string) (dockerfile : option string)
  | SubprocessRun (argv : list string) (cwd : option string) (timeout : Z).

Record World := {
  docker_client : bool;                   (* False: docker_client is None *)
  containers : gmap string Container;     (* by container name *)
  images : gmap string string;            (* tag -> Dockerfile it was built from *)
  files : gmap string string;             (* regular files: path -> content *)
  dirs : gset string;                     (* directories *)
  faults : list (option string);
    (* one entry per daemon or file-system call still to come:
       [Some msg] makes that call raise [Exception(msg)]; calls beyond
       the end of the list are served *)
  git_outcome : GitRun;                   (* how a git subprocess ends *)
  build_logs : list (gmap string string); (* JSON chunks a build streams *)
  next_cid : Z;                           (* source of container ids *)
  journal : list Call;
}.

Definition set_containers (f : gmap string Container → gmap string Container)
    (w : World) : World :=
  {| docker_client := docker_client w; containers := f (containers w);
     images := images w; files := files w; dirs := dirs w;
     faults := faults w; git_outcome := git_outcome w;
     build_logs := build_logs w; next_cid := next_cid w;
     journal := journal w |}.

Definition set_images (f : gmap string string → gmap string string)
    (w : World) : World :=
  {| docker_client := docker_client w; containers := containers w;
     images := f (images w); files := files w; dirs := dirs w;
     faults := faults w; git_outcome := git_outcome w;
     build_logs := build_logs w; next_cid := next_cid w;
     journal := journal w |}.

Definition set_files (f : gmap string string → gmap string string)
    (w : World) : World :=
  {| docker_client := docker_client w; containers := containers w;
     images := images w; files := f (files w); dirs := dirs w;
     faults := faults w; git_outcome := git_outcome w;
     build_logs := build_logs w; next_cid := next_cid w;
     journal := journal w |}.

Definition set_dirs (f : gset string → gset string) (w : World) : World :=
  {| docker_client := docker_client w; containers := containers w;
     images := images w; files := files w; dirs := f (dirs w);
     faults := faults w; git_outcome := git_outcome w;
     build_logs := build_logs w; next_cid := next_cid w;
     journal := journal w |}.

Definition set_faults (fs : list (option string)) (w : World) : World :=
  {| docker_client := docker_client w; containers := containers w;
     images := images w; files := files w; dirs := dirs w;
     faults := fs; git_outcome := git_outcome w;
     build_logs := build_logs w; next_cid := next_cid w;
     journal := journal w |}.

Definition set_next_cid (n : Z) (w : World) : World :=
  {| docker_client := docker_client w; containers := containers w;
     images := images w; files := files w; dirs := dirs w;
     faults := faults w; git_outcome := git_outcome w;
     build_logs := build_logs w; next_cid := n;
     journal := journal w |}.

Definition set_journal (j : list Call) (w : World) : World :=
  {| docker_client := docker_client w; containers := containers w;
     images := images w; files := files w; dirs := dirs w;
     faults := faults w; git_outcome := git_outcome w;
     build_logs := build_logs w; next_cid := next_cid w;
     journal := j |}.

(** Every daemon or file-system call first meets the fault schedule. *)
Definition may_fail : M World unit :=
  λ w, match faults w with
       | [] => (Ok tt, w)
       | None :: fs => (Ok tt, set_faults fs w)
       | Some msg :: fs => (Raise (Exception msg), set_faults fs w)
       end.

Definition record_call (c : Call) : M World unit :=
  modify (λ w, set_journal (journal w ++ [c]) w).

(** *** The Docker daemon *)

(** [docker_client.containers.get(name)]. *)
Definition containers_get (name : string) : M World Container :=
  record_call (ContainersGet name);;
  may_fail;;
  found <- gets (λ w, containers w !! name);;
  match found with
  | Some c => ret c
  | None => raise (NotFound ("404 Client Error: No such container: " +:+ name))
  end.

(** [container.stop(timeout=t)] on the container called [name]. *)
Definition container_stop (name : string) (t : Z) : M World unit :=
  record_call (ContainerStop name t);;
  may_fail;;
  found <- gets (λ w, containers w !! name);;
  match found with
  | Some c =>
      modify (set_containers (insert name
        {| c_image := c_image c; c_status := "exited";
           c_environment := c_environment c; c_command := c_command c;
           c_restart_policy := c_restart_policy c;
           c_network_mode := c_network_mode c;
           c_short_id := c_short_id c |}))
  | None => raise (NotFound ("404 Client Error: No such container: " +:+ name))
  end.

(** [container.remove()]. *)
Definition container_remove (name : string) : M World unit :=
  record_call (ContainerRemove name);;
  may_fail;;
  found <- gets (λ w, containers w !! name);;
  match found with
  | Some _ => modify (set_containers (delete name))
  | None => raise (NotFound ("404 Client Error: No such container: " +:+ name))
  end.

(** [docker_client.containers.run(image, name=..., environment=...,
    command=..., detach=True, restart_policy={"Name": policy},
    network_mode=...)]: the image must exist and the name must be free.
    Returns the new container. *)
Definition containers_run (image name : string) (env : gmap string string)
    (command : list string) (policy network : string) : M World Container :=
  record_call (ContainersRun image name env command true policy network);;
  may_fail;;
  w <- gets id;;
  match images w !! image with
  | None => raise (NotFound ("404 Client Error: No such image: " +:+ image))
  | Some _ =>
      match containers w !! name with
      | Some _ =>
          raise (Exception ("409 Client Error: Conflict: the container name /"
                            +:+ name +:+ " is already in use"))
      | None =>
          let c := {| c_image := image; c_status := "running";
                      c_environment := env; c_command := command;
                      c_restart_policy := policy; c_network_mode := network;
                      c_short_id := str (next_cid w) |} in
          modify (λ w, set_next_cid (next_cid w + 1)
                         (set_containers (insert name c) w));;
          ret c
      end
  end.

(** [docker_client.images.build(path=..., tag=..., rm=True, forcerm=True)]:
    builds from the Dockerfile in [path] and, only when the build went
    through, tags the result.  Returns the streamed log chunks. *)
Definition images_build (path tag : string) : M World (list (gmap string string)) :=
  w <- gets id;;
  let dockerfile := files w !! os_path_join path "Dockerfile" in
  record_call (ImagesBuild path tag dockerfile);;
  may_fail;;
  match dockerfile with
  | None => raise (Exception "Cannot locate specified Dockerfile: Dockerfile")
  | Some d =>
      modify (set_images (insert tag d));;
      gets build_logs
  end.

(** *** The file system *)

(** [os.path.exists(p)]. *)
Definition os_path_exists (p : string) (w : World) : bool :=
  bool_decide (is_Some (files w !! p) ∨ p ∈ dirs w).

(** [os.path.isdir(p)]. *)
Definition os_path_isdir (p : string) (w : World) : bool :=
  bool_decide (p ∈ dirs w).

(** [with open(p, "w") as f: f.write(data)]. *)
Definition write_file (p data : string) : M World unit :=
  may_fail;;
  modify (set_files (insert p data)).

(** [shutil.copy(src, dst)] for a regular file [dst]. *)
Definition shutil_copy (src dst : string) : M World unit :=
  may_fail;;
  found <- gets (λ w, files w !! src);;
  match found with
  | Some data => modify (set_files (insert dst data))
  | None => raise (Exception ("[Errno 21] Is a directory: " +:+ src))
  end.

(** [os.makedirs(p, exist_ok=True)]. *)
Definition os_makedirs (p : string) : M World unit :=
  may_fail;;
  if truthy p then modify (set_dirs (λ ds, ds ∪ {[p]}))
  else raise (Exception "[Errno 2] No such file or directory: ''").

(** [shutil.rmtree(p)]. *)
Definition shutil_rmtree (p : string) : M World unit :=
  may_fail;;
  modify (λ w,
    set_dirs (filter (λ q, q ≠ p ∧ below p q = false))
      (set_files (filter (λ kv, kv.1 ≠ p ∧ below p kv.1 = false)) w)).

(** [os.remove(p)]. *)
Definition os_remove (p : string) : M World unit :=
  may_fail;;
  found <- gets (λ w, files w !! p);;
  match found with
  | Some _ => modify (set_files (delete p))
  | None => raise (Exception ("[Errno 2] No such file or directory: " +:+ p))
  end.

(** [zipfile.ZipFile(...).extractall(dest)] for the decoded [members]. *)
Definition extractall (members : list (string * string)) (dest : string)
    : M World unit :=
  may_fail;;
  modify (set_files (λ fs,
    foldl (λ acc m, <[os_path_join dest m.1 := m.2]> acc) fs members)).

(** *** The git subprocess *)

(** [subprocess.run(argv, cwd=..., capture_output=True, text=True,
    timeout=t)].  A clone that exits with 0 leaves a working copy. *)
Definition subprocess_run (argv : list string) (cwd : option string) (t : Z)
    : M World (Z * string * string) :=
  record_call (SubprocessRun argv cwd t);;
  outcome <- gets git_outcome;;
  match outcome with
  | TimedOut msg => raise (TimeoutExpired msg)
  | Crashed msg => raise (Exception msg)
  | Completed rc out err =>
      match argv with
      | ["git"; "clone"; _; dest] =>
          if bool_decide (rc = 0) then
            modify (set_dirs (λ ds, ds ∪ {[dest; os_path_join dest ".git"]}))
          else ret tt
      | _ => ret tt
      end;;
      ret (rc, out, err)
  end.

(** ** The container runtime adapter ([docker_manager.py]) *)

(** Lines 34-49. *)
Definition get_bot_status (bot_id : Z) : World → string * World :=
  λ w,
  if negb (docker_client w) then ("Unknown", w)
  else
    let container_name := get_container_name bot_id in
    catching
      (container <- containers_get container_name;;
       if (c_status container =? "running")%string then ret "Running"
       else ret ("Stopped (" +:+ c_status container +:+ ")"))
      (λ e, match e with
            | NotFound _ => "Stopped"
            | _ => "Error: " +:+ str_exc e
            end) w.

(** The Dockerfile written when no template is installed (lines 74-87). *)
Definition basic_dockerfile : string :=
  join nl [
    "FROM python:3.11-slim";
    EmptyString;
    "WORKDIR /app";
    EmptyString;
    "# Copy requirements and install if exists";
    "COPY requirements.txt* ./";
    "RUN if [ -f requirements.txt ]; then pip install --no-cache-dir -r requirements.txt; fi";
    EmptyString;
    "# Copy bot source code";
    "COPY . .";
    EmptyString;
    "# Default command (will be overridden)";
    "CMD [" +:+ dquote +:+ "python" +:+ dquote +:+ ", "
            +:+ dquote +:+ "bot.py" +:+ dquote +:+ "]";
    EmptyString
  ].

(** The log chunks that carry a ["stream"] key, stripped (lines 98-100). *)
Definition stream_lines (build_logs : list (gmap string string)) : list string :=
  omap (λ log : gmap string string, strip <$> log !! "stream") build_logs.

(** Lines 52-106. *)
Definition build_bot_image (bot_id : Z) (code_path : string)
    : World → (bool * string) * World :=
  λ w,
  if negb (docker_client w) then ((false, "Docker client not available"), w)
  else
    let image_name := get_image_name bot_id in
    catching
      (let dockerfile_path := os_path_join code_path "Dockerfile" in
       at_app <- gets (os_path_exists "/app/BotDockerfile.template");;
       let template_path :=
         if at_app then "/app/BotDockerfile.template"
         else "BotDockerfile.template" in
       have_template <- gets (os_path_exists template_path);;
       (if have_template then shutil_copy template_path dockerfile_path
        else write_file dockerfile_path basic_dockerfile);;
       build_logs <- images_build code_path image_name;;
       let output := stream_lines build_logs in
       let log_text := join nl output in
       ret (true, "Image built successfully: " +:+ image_name +:+ nl
                  +:+ log_text))
      (λ e, (false, "Failed to build image: " +:+ str_exc e)) w.

(** Lines 109-143. *)
Definition run_bot_container (bot_id : Z) (env_vars : gmap string string)
    (start_command : string) : World → (bool * string) * World :=
  λ w,
  if negb (docker_client w) then ((false, "Docker client not available"), w)
  else
    let container_name := get_container_name bot_id in
    let image_name := get_image_name bot_id in
    catching
      (try_except
         (existing <- containers_get container_name;;
          container_stop container_name 10;;
          container_remove container_name)
         (λ e, match e with NotFound _ => ret tt | _ => raise e end);;
       let command_parts :=
         if truthy start_command then split start_command
         else ["python"; "bot.py"] in
       container <- containers_run image_name container_name env_vars
                      command_parts "always" "bridge";;
       ret (true, "Container " +:+ container_name
                  +:+ " started successfully (ID: "
                  +:+ c_short_id container +:+ ")"))
      (λ e, (false, "Failed to run container: " +:+ str_exc e)) w.

(** Lines 146-161. *)
Definition stop_bot_container (bot_id : Z) : World → (bool * string) * World :=
  λ w,
  if negb (docker_client w) then ((false, "Docker client not available"), w)
  else
    let container_name := get_container_name bot_id in
    catching
      (container <- containers_get container_name;;
       container_stop container_name 10;;
       container_remove container_name;;
       ret (true, "Container " +:+ container_name +:+ " stopped successfully"))
      (λ e, match e with
            | NotFound _ =>
                (true, "Container " +:+ container_name +:+ " is not running")
            | _ => (false, "Failed to stop container: " +:+ str_exc e)
            end) w.

(** Lines 164-171. *)
Definition restart_bot_container (bot_id : Z) (env_vars : gmap string string)
    (start_command : string) : World → (bool * string) * World :=
  λ w,
  let '((stop_success, stop_msg), w1) := stop_bot_container bot_id w in
  if negb stop_success then
    ((false, "Failed to stop container: " +:+ stop_msg), w1)
  else
    let '((run_success, run_msg), w2) :=
      run_bot_container bot_id env_vars start_command w1 in
    ((run_success, "Restarted: " +:+ run_msg), w2).

(** ** The source fetcher ([docker_manager.py], lines 191-226) *)

Definition clone_or_pull_repo (repo_url code_path : string)
    : World → (bool * string) * World :=
  catching
    (is_repo <- gets (λ w, os_path_exists code_path w
                           && os_path_isdir (os_path_join code_path ".git") w);;
     if is_repo then
       result <- subprocess_run ["git"; "pull"] (Some code_path) 60;;
       let '(returncode, stdout, stderr) := result in
       if bool_decide (returncode = 0) then
         ret (true, "Successfully pulled latest changes:" +:+ nl +:+ stdout)
       else ret (false, "Git pull failed:" +:+ nl +:+ stderr)
     else
       os_makedirs (os_path_dirname code_path);;
       result <- subprocess_run ["git"; "clone"; repo_url; code_path] None 120;;
       let '(returncode, stdout, stderr) := result in
       if bool_decide (returncode = 0) then
         ret (true, "Successfully cloned repository:" +:+ nl +:+ stdout)
       else ret (false, "Git clone failed:" +:+ nl +:+ stderr))
    (λ e, match e with
          | TimeoutExpired _ => (false, "Git operation timed out")
          | _ => (false, "Git operation failed: " +:+ str_exc e)
          end).

(** ** The bot registry ([models.py]) *)

Record BotApp := {
  b_id : Z;
  b_name : string;
  b_repo_url : option string;
  b_code_path : string;
  b_runtime : string;
  b_start_command : string;
}.

Record BotEnvVar := {
  ev_bot_id : Z;
  ev_key : string;
  ev_value : string;
}.

Record Deployment := {
  d_id : Z;
  d_bot_id : Z;
  d_status : string;               (* "pending", "success", "failed" *)
  d_log : option string;
}.

Record DB := {
  bots : list BotApp;
  env_vars : list BotEnvVar;
  deployments : list Deployment;   (* in order of creation *)
  status_writes : list (Z * string * string);
    (* every assignment to a deployment's status, in order:
       (deployment id, value before, value assigned) *)
}.

Record Sys := { db : DB; world : World }.

Definition set_db (f : DB → DB) (s : Sys) : Sys :=
  {| db := f (db s); world := world s |}.

(** Running code of the adapter inside a request handler. *)
Definition in_world {A} (m : M World A) : M Sys A :=
  λ s, let (r, w) := m (world s) in (r, {| db := db s; world := w |}).

(** [db.query(BotApp).filter(BotApp.id == bot_id).first()]. *)
Definition query_bot (bot_id : Z) (d : DB) : option BotApp :=
  List.find (λ b, bool_decide (b_id b = bot_id)) (bots d).

(** [{ev.key: ev.value for ev in bot.env_vars}]. *)
Definition env_dict (bot : BotApp) (d : DB) : gmap string string :=
  foldl (λ m ev, <[ev_key ev := ev_value ev]> m) ∅
    (List.filter (λ ev, bool_decide (ev_bot_id ev = b_id bot)) (env_vars d)).

(** The primary key given to the next row. *)
Definition fresh_id (ds : list Deployment) : Z :=
  1 + foldr (λ d, Z.max (d_id d)) 0 ds.

(** [deployment = Deployment(bot_id=bot_id, status="pending");
    db.add(deployment); db.commit(); db.refresh(deployment)].
    The handler keeps the row through its primary key. *)
Definition add_deployment (bot_id : Z) : M Sys Z :=
  n <- gets (λ s, fresh_id (deployments (db s)));;
  modify (set_db (λ d,
    {| bots := bots d; env_vars := env_vars d;
       deployments := deployments d ++
         [{| d_id := n; d_bot_id := bot_id; d_status := "pending";
             d_log := None |}];
       status_writes := status_writes d |}));;
  ret n.

Definition status_of (n : Z) (ds : list Deployment) : option string :=
  d_status <$> List.find (λ d, bool_decide (d_id d = n)) ds.

(** [deployment.status = v]. *)
Definition set_status (n : Z) (v : string) : M Sys unit :=
  modify (set_db (λ d,
    {| bots := bots d; env_vars := env_vars d;
       deployments :=
         (λ r, if bool_decide (d_id r = n)
               then {| d_id := d_id r; d_bot_id := d_bot_id r;
                       d_status := v; d_log := d_log r |}
               else r) <$> deployments d;
       status_writes :=
         status_writes d ++
         match status_of n (deployments d) with
         | Some old => [(n, old, v)]
         | None => []
         end |})).

(** [deployment.log = v]. *)
Definition set_log (n : Z) (v : string) : M Sys unit :=
  modify (set_db (λ d,
    {| bots := bots d; env_vars := env_vars d;
       deployments :=
         (λ r, if bool_decide (d_id r = n)
               then {| d_id := d_id r; d_bot_id := d_bot_id r;
                       d_status := d_status r; d_log := Some v |}
               else r) <$> deployments d;
       status_writes := status_writes d |})).

(** ** The request handlers ([main.py]) *)

Inductive Response :=
  | RedirectResponse (url : string) (status_code : Z).

Definition bot_page (bot_id : Z) : Response :=
  RedirectResponse ("/bots/" +:+ str bot_id) 303.

(** Lines 280-300. *)
Definition start_bot (bot_id : Z) : M Sys Response :=
  found <- gets (λ s, query_bot bot_id (db s));;
  match found with
  | None => raise (HTTPException 404 "Bot not found")
  | Some bot =>
      env <- gets (λ s, env_dict bot (db s));;
      r <- in_world (call (run_bot_container (b_id bot) env
                             (b_start_command bot)));;
      let '(success, message) := r in
      if negb success then raise (HTTPException 500 message)
      else ret (bot_page bot_id)
  end.

(** Lines 303-319. *)
Definition stop_bot (bot_id : Z) : M Sys Response :=
  found <- gets (λ s, query_bot bot_id (db s));;
  match found with
  | None => raise (HTTPException 404 "Bot not found")
  | Some bot =>
      r <- in_world (call (stop_bot_container (b_id bot)));;
      let '(success, message) := r in
      if negb success then raise (HTTPException 500 message)
      else ret (bot_page bot_id)
  end.

(** Lines 322-341. *)
Definition restart_bot (bot_id : Z) : M Sys Response :=
  found <- gets (λ s, query_bot bot_id (db s));;
  match found with
  | None => raise (HTTPException 404 "Bot not found")
  | Some bot =>
      env <- gets (λ s, env_dict bot (db s));;
      r <- in_world (call (restart_bot_container (b_id bot) env
                             (b_start_command bot)));;
      let '(success, message) := r in
      if negb success then raise (HTTPException 500 message)
      else ret (bot_page bot_id)
  end.

(** [deploy_bot] from [logs = []] on (lines 364-399), for the bot found
    and the deployment row just created. *)
Definition deploy_steps (bot_id : Z) (bot : BotApp) (deployment : Z)
    : M Sys Response :=
  let logs : list string := [] in
  r <- in_world (call (clone_or_pull_repo (default EmptyString (b_repo_url bot))
                         (b_code_path bot)));;
  let '(success, message) := r in
  let logs := logs ++ [message] in
  if negb success then
    set_status deployment "failed";;
    set_log deployment (join nl logs);;
    raise (HTTPException 500 message)
  else
    r <- in_world (call (build_bot_image (b_id bot) (b_code_path bot)));;
    let '(success, message) := r in
    let logs := logs ++ [message] in
    if negb success then
      set_status deployment "failed";;
      set_log deployment (join nl logs);;
      raise (HTTPException 500 message)
    else
      env <- gets (λ s, env_dict bot (db s));;
      r <- in_world (call (restart_bot_container (b_id bot) env
                             (b_start_command bot)));;
      let '(success, message) := r in
      let logs := logs ++ [message] in
      (if success then set_status deployment "success"
       else set_status deployment "failed");;
      set_log deployment (join nl logs);;
      ret (bot_page bot_id).

(** Lines 344-399. *)
Definition deploy_bot (bot_id : Z) : M Sys Response :=
  found <- gets (λ s, query_bot bot_id (db s));;
  match found with
  | None => raise (HTTPException 404 "Bot not found")
  | Some bot =>
      if negb (truthy_opt (b_repo_url bot)) then
        raise (HTTPException 400 "No repository URL configured")
      else
        deployment <- add_deployment bot_id;;
        deploy_steps bot_id bot deployment
  end.

(** An uploaded file: its name, its bytes, and what [zipfile] decodes the
    bytes to ([None] when they are not a ZIP archive). *)
Record UploadFile := {
  filename : option string;
  content : string;
  archive : option (list (string * string));
}.

(** The handler's local list [logs] lives next to the system state, so
    that what was appended before an exception is still there after it. *)
Definition with_logs {A} (m : M Sys A) : M (list string * Sys) A :=
  λ ls, let (r, s) := m ls.2 in (r, (ls.1, s)).

Definition logs_append (msg : string) : M (list string * Sys) unit :=
  modify (λ ls, (ls.1 ++ [msg], ls.2)).

(** [with zipfile.ZipFile(path, "r") as zip_ref: zip_ref.extractall(dest)]. *)
Definition unzip (file : UploadFile) (path dest : string) : M World unit :=
  may_fail;;
  found <- gets (λ w, files w !! path);;
  match found, archive file with
  | None, _ =>
      raise (Exception ("[Errno 2] No such file or directory: " +:+ path))
  | Some _, None => raise (Exception "File is not a zip file")
  | Some _, Some members => extractall members dest
  end.

(** The body of the [try] block of [upload_bot_code] (lines 441-481). *)
Definition upload_steps (bot_id : Z) (bot : BotApp) (deployment : Z)
    (file : UploadFile) : M (list string * Sys) unit :=
  let temp_zip := "/tmp/bot_" +:+ str bot_id +:+ "_upload.zip" in
  with_logs (in_world (write_file temp_zip (content file)));;
  logs_append ("Uploaded file: " +:+ fmt_opt (filename file) +:+ " ("
               +:+ str (len (content file)) +:+ " bytes)");;
  there <- with_logs (gets (λ s, os_path_exists (b_code_path bot) (world s)));;
  (if there then with_logs (in_world (shutil_rmtree (b_code_path bot)))
   else ret tt);;
  with_logs (in_world (os_makedirs (b_code_path bot)));;
  with_logs (in_world (unzip file temp_zip (b_code_path bot)));;
  logs_append ("Extracted to: " +:+ b_code_path bot);;
  with_logs (in_world (os_remove temp_zip));;
  r <- with_logs (in_world (call (build_bot_image (b_id bot)
                                    (b_code_path bot))));;
  let '(success, message) := r in
  logs_append message;;
  (if negb success then
     with_logs (set_status deployment "failed");;
     logs <- gets fst;;
     with_logs (set_log deployment (join nl logs));;
     raise (HTTPException 500 message)
   else ret tt);;
  env <- with_logs (gets (λ s, env_dict bot (db s)));;
  r <- with_logs (in_world (call (restart_bot_container (b_id bot) env
                                    (b_start_command bot))));;
  let '(success, message) := r in
  logs_append message;;
  if success then with_logs (set_status deployment "success")
  else with_logs (set_status deployment "failed").

(** Lines 420-490. *)
Definition upload_bot_code (bot_id : Z) (file : UploadFile) : M Sys Response :=
  found <- gets (λ s, query_bot bot_id (db s));;
  match found with
  | None => raise (HTTPException 404 "Bot not found")
  | Some bot =>
      deployment <- add_deployment bot_id;;
      λ s,
        let '(_, (logs, s')) :=
          try_except (upload_steps bot_id bot deployment file)
            (λ e, logs_append ("Error: " +:+ str_exc e);;
                  with_logs (set_status deployment "failed"))
            ([], s) in
        (set_log deployment (join nl logs);;
         ret (bot_page bot_id)) s'
  end.

(** The requests that reach the orchestrator, and their handlers. *)
Inductive Request :=
  | Start (bot_id : Z)
  | Stop (bot_id : Z)
  | Restart (bot_id : Z)
  | Deploy (bot_id : Z)
  | Upload (bot_id : Z) (file : UploadFile).

Definition handle (r : Request) : M Sys Response :=
  match r with
  | Start b => start_bot b
  | Stop b => stop_bot b
  | Restart b => restart_bot b
  | Deploy b => deploy_bot b
  | Upload b f => upload_bot_code b f
  end.

(** ** Vocabulary of the properties *)

(** Hoare triples for the monad: from a state in [P], the computation
    ends in [Q] when it returns and in [E] when it raises. *)
Definition hoare {Σ A} (P : Σ → Prop) (m : M Σ A)
    (Q : A → Σ → Prop) (E : Exc → Σ → Prop) : Prop :=
  ∀ s, P s →
    match m s with
    | (Ok a, s') => Q a s'
    | (Raise e, s') => E e s'
    end.

(** [I] is kept by the computation, however it ends. *)
Definition inv {Σ A} (I : Σ → Prop) (m : M Σ A) : Prop :=
  hoare I m (λ _, I) (λ _, I).

(** The same for a total state transformer. *)
Definition tinv {Σ A} (I : Σ → Prop) (f : Σ → A * Σ) : Prop :=
  ∀ s, I s → I (f s).2.

(** Calls that act on a container. *)
Definition lifecycle (c : Call) : bool :=
  match c with
  | ContainersGet _ | ContainerStop _ _ | ContainerRemove _
  | ContainersRun _ _ _ _ _ _ _ => true
  | ImagesBuild _ _ _ | SubprocessRun _ _ _ => false
  end.

Definition is_subprocess (c : Call) : bool :=
  match c with SubprocessRun _ _ _ => true | _ => false end.

Definition is_build (c : Call) : bool :=
  match c with ImagesBuild _ _ _ => true | _ => false end.

Definition is_run (c : Call) : bool :=
  match c with ContainersRun _ _ _ _ _ _ _ => true | _ => false end.

(** [w] comes after [w0], and every call made in between satisfies [ok]. *)
Definition calls_since (ok : Call → bool) (w0 w : World) : Prop :=
  ∃ l, journal w = journal w0 ++ l ∧ forallb ok l = true.

(** Same connection and same containers as in [w0]. *)
Definition untouched (w0 w : World) : Prop :=
  docker_client w = docker_client w0 ∧ containers w = containers w0.

(** From [w0] to [w] no container was touched, and no container call was
    even made. *)
Definition quiet (w0 w : World) : Prop :=
  untouched w0 w ∧ calls_since (λ c, negb (lifecycle c)) w0 w.

(** The next daemon or file-system call is served, not failed. *)
Definition served (w : World) : bool :=
  match faults w with
  | Some _ :: _ => false
  | _ => true
  end.

(** What a container is, leaving its id out. *)
Definition running_state (c : Container)
    : string * string * gmap string string * list string * string * string :=
  (c_image c, c_status c, c_environment c, c_command c,
   c_restart_policy c, c_network_mode c).

(** The state [run_bot_container] is to bring about. *)
Definition wanted_state (bot_id : Z) (env_vars : gmap string string)
    (start_command : string)
    : string * string * gmap string string * list string * string * string :=
  (get_image_name bot_id, "running", env_vars,
   if truthy start_command then split start_command else ["python"; "bot.py"],
   "always", "bridge").

(** The Dockerfile [build_bot_image] installs: the template of the
    platform when there is one, the basic Dockerfile otherwise. *)
Definition installed_dockerfile (w : World) : string :=
  match files w !! "/app/BotDockerfile.template" with
  | Some t => t
  | None => default basic_dockerfile (files w !! "BotDockerfile.template")
  end.

(** The calls by which [run_bot_container] replaces the container of a
    bot: look it up, stop and remove it when it exists, start the new one. *)
Definition replacement_calls (bot_id : Z) (env_vars : gmap string string)
    (start_command : string) (existed : bool) : list Call :=
  ContainersGet (get_container_name bot_id) ::
  (if existed then [ContainerStop (get_container_name bot_id) 10;
                    ContainerRemove (get_container_name bot_id)]
   else []) ++
  [ContainersRun (get_image_name bot_id) (get_container_name bot_id) env_vars
     (if truthy start_command then split start_command
      else ["python"; "bot.py"])
     true "always" "bridge"].

(** The state after [deployment.status = v] and
    [deployment.log = "\n".join(logs)]. *)
Definition finalized (n : Z) (v : string) (logs : list string) (s : Sys) : Sys :=
  ((set_status n v;; set_log n (join nl logs)) s).2.

Definition terminal (v : string) : Prop := v = "success" ∨ v = "failed".

(** An assignment to a status that is a transition from ["pending"] to a
    terminal status, or leaves a terminal status as it is. *)
Definition legal_write (x : Z * string * string) : Prop :=
  let '(_, old, v) := x in
  terminal v ∧ (old = "pending" ∨ old = v).

(** The row of a deployment. *)
Definition row (n bot_id : Z) (v : string) (lg : option string) : Deployment :=
  {| d_id := n; d_bot_id := bot_id; d_status := v; d_log := lg |}.

(** The state of the registry while deployment [n] of bot [bot_id],
    created in registry [d0], has status [v], log [lg], and has seen the
    status assignments [ws]. *)
Definition tracks (d0 : DB) (n bot_id : Z) (v : string) (lg : option string)
    (ws : list (Z * string * string)) (d : DB) : Prop :=
  bots d = bots d0 ∧ env_vars d = env_vars d0 ∧
  deployments d = deployments d0 ++ [row n bot_id v lg] ∧
  status_writes d = status_writes d0 ++ ws.

(** The same, whatever the log. *)
Definition phase (d0 : DB) (n bot_id : Z) (v : string)
    (ws : list (Z * string * string)) (s : Sys) : Prop :=
  ∃ lg, tracks d0 n bot_id v lg ws (db s).

(** ** Sample states *)

(** A host with a reachable daemon and nothing on it. *)
Definition fresh_host : World := {|
  docker_client := true;
  containers := ∅;
  images := ∅;
  files := ∅;
  dirs := ∅;
  faults := [];
  git_outcome := Completed 0 "Cloning into '/srv/bots/alpha'..." EmptyString;
  build_logs := [{[ "stream" := "Step 1/6 : FROM python:3.11-slim" +:+ nl ]};
                 {[ "aux" := "sha256:0f3c" ]};
                 {[ "stream" := "Successfully built 0f3c" +:+ nl ]}];
  next_cid := 1;
  journal := [];
|}.

(** A container of bot 1 in the given state, on an image built before. *)
Definition container_of_bot_1 (status : string) : Container := {|
  c_image := get_image_name 1;
  c_status := status;
  c_environment := ∅;
  c_command := ["python"; "bot.py"];
  c_restart_policy := "always";
  c_network_mode := "bridge";
  c_short_id := "0";
|}.

Definition host_with_container (status : string) : World :=
  set_images (insert (get_image_name 1) "FROM python:3.10")
    (set_containers (insert (get_container_name 1) (container_of_bot_1 status))
       fresh_host).

(** The sources of bot 1 come with a Dockerfile of their own. *)
Definition host_with_custom_dockerfile : World :=
  set_files (insert "/srv/bots/alpha/Dockerfile" "FROM node:20") fresh_host.

(** A registry with a repo-backed bot (1) and an upload-only bot (2),
    on the given host. *)
Definition alpha : BotApp := {|
  b_id := 1; b_name := "alpha";
  b_repo_url := Some "https://example/alpha.git";
  b_code_path := "/srv/bots/alpha";
  b_runtime := "python"; b_start_command := "python bot.py";
|}.

Definition beta : BotApp := {|
  b_id := 2; b_name := "beta";
  b_repo_url := None;
  b_code_path := "/srv/bots/beta";
  b_runtime := "python"; b_start_command := EmptyString;
|}.

Definition platform_on (w : World) : Sys := {|
  db := {| bots := [alpha; beta]; env_vars := []; deployments := [];
           status_writes := [] |};
  world := w;
|}.

(** Bot 1 is running; the next build will break at a [RUN] step: the
    two file-system calls before it are served, the build call fails. *)
Definition host_where_build_breaks : World :=
  set_faults [None; None;
              Some "The command '/bin/sh -c pip install' returned a non-zero code: 1"]
    (host_with_container "running").

(** An archive with one source file, uploaded for bot 2. *)
Definition beta_zip : UploadFile := {|
  filename := Some "beta.zip";
  content := "PK";
  archive := Some [("bot.py", "print('beta')")];
|}.

(** Bytes that are not an archive. *)
Definition not_a_zip : UploadFile := {|
  filename := Some "notes.txt";
  content := "hello";
  archive := None;
|}.

(** The disk is full when the archive is to be saved. *)
Definition host_with_full_disk : World :=
  set_faults [Some "[Errno 28] No space left on device"] fresh_host.

(** The fetch will fail: the remote turns the clone down. *)
Definition host_where_fetch_fails : World :=
  {| docker_client := true; containers := ∅; images := ∅; files := ∅;
     dirs := ∅; faults := [];
     git_outcome := Completed 128 EmptyString "fatal: Authentication failed";
     build_logs := []; next_cid := 1; journal := [] |}.

(** ** The rest of the adapter and of the handlers *)

(** [container.logs(tail=tail, timestamps=True).decode("utf-8")] for the
    container called [name].  [output] is the log text the daemon holds:
    what it answers for a container and a tail length. *)
Definition container_logs (output : string → Z → string) (name : string)
    (tail : Z) : M World string :=
  may_fail;;
  found <- gets (λ w, containers w !! name);;
  match found with
  | Some _ => ret (output name tail)
  | None => raise (NotFound ("404 Client Error: No such container: " +:+ name))
  end.

(** [docker_manager.py], lines 174-188. *)
Definition get_bot_logs (output : string → Z → string) (bot_id : Z) (tail : Z)
    : World → (bool * string) * World :=
  λ w,
  if negb (docker_client w) then ((false, "Docker client not available"), w)
  else
    let container_name := get_container_name bot_id in
    catching
      (container <- containers_get container_name;;
       logs <- container_logs output container_name tail;;
       ret (true, logs))
      (λ e, match e with
            | NotFound _ =>
                (false, "Container " +:+ container_name +:+ " not found")
            | _ => (false, "Failed to get logs: " +:+ str_exc e)
            end) w.

(** What a handler answers besides a redirect: a rendered template, with
    the part of its context that the handler computes. *)
Inductive Page :=
  | Redirect (r : Response)
  | NewBotForm (error : string)                (* bots/new.html *)
  | LogsPage (bot : BotApp) (logs : string).   (* bots/logs.html *)

(** [main.py], lines 493-513. *)
Definition view_logs (output : string → Z → string) (bot_id : Z) : M Sys Page :=
  found <- gets (λ s, query_bot bot_id (db s));;
  match found with
  | None => raise (HTTPException 404 "Bot not found")
  | Some bot =>
      r <- in_world (call (get_bot_logs output (b_id bot) 200));;
      let '(success, logs) := r in
      let logs :=
        if negb success then "Error fetching logs: " +:+ logs else logs in
      ret (LogsPage bot logs)
  end.

(** The primary key given to the next bot. *)
Definition fresh_bot_id (bs : list BotApp) : Z :=
  1 + foldr (λ b, Z.max (b_id b)) 0 bs.

(** [repo_url.strip() if repo_url and repo_url.strip() else None]. *)
Definition clean_repo_url (repo_url : option string) : option string :=
  match repo_url with
  | Some u => if truthy u && truthy (strip u) then Some (strip u) else None
  | None => None
  end.

(** [main.py], lines 174-209. *)
Definition create_bot (name runtime start_command : string)
    (repo_url : option string) : M Sys Page :=
  existing <- gets (λ s, List.find (λ b, (b_name b =? name)%string)
                           (bots (db s)));;
  match existing with
  | Some _ =>
      ret (NewBotForm ("Bot with name '" +:+ name +:+ "' already exists"))
  | None =>
      let code_path := "/srv/bots/" +:+ name in
      in_world (os_makedirs code_path);;
      n <- gets (λ s, fresh_bot_id (bots (db s)));;
      let bot := {| b_id := n; b_name := name;
                    b_repo_url := clean_repo_url repo_url;
                    b_code_path := code_path; b_runtime := runtime;
                    b_start_command := start_command |} in
      modify (set_db (λ d,
        {| bots := bots d ++ [bot]; env_vars := env_vars d;
           deployments := deployments d;
           status_writes := status_writes d |}));;
      ret (Redirect (bot_page n))
  end.

(** [s.replace(old, new)] for a non-empty [old]: the occurrences of [old]
    are replaced from left to right, without overlap.  [skip] counts the
    characters of an occurrence still to be passed over. *)
Fixpoint replace_from (skip : nat) (old new s : string) : string :=
  match s with
  | EmptyString => EmptyString
  | String c r =>
      match skip with
      | S k => replace_from k old new r
      | O =>
          if String.prefix old s then
            new +:+ replace_from (String.length old - 1) old new r
          else String c (replace_from 0 old new r)
      end
  end.

Definition str_replace (old new s : string) : string := replace_from 0 old new s.

(** [for x in items: body(x)]. *)
Fixpoint for_each {Σ A} (items : list A) (body : A → M Σ unit) : M Σ unit :=
  match items with
  | [] => ret tt
  | x :: rest => body x;; for_each rest body
  end.

(** [form_data[k]], with [None] when [k not in form_data].  A form is
    given by its items, the keys distinct as in a dict. *)
Definition form_get (form_data : list (string * string)) (k : string)
    : option string :=
  snd <$> List.find (λ kv, (kv.1 =? k)%string) form_data.

(** [db.add(env_var)]. *)
Definition add_env_var (ev : BotEnvVar) : M Sys unit :=
  modify (set_db (λ d,
    {| bots := bots d; env_vars := env_vars d ++ [ev];
       deployments := deployments d; status_writes := status_writes d |})).

(** [db.query(BotEnvVar).filter(BotEnvVar.bot_id == bot_id).delete()]. *)
Definition delete_env_vars (bot_id : Z) : M Sys unit :=
  modify (set_db (λ d,
    {| bots := bots d;
       env_vars := List.filter (λ ev, negb (bool_decide (ev_bot_id ev = bot_id)))
                     (env_vars d);
       deployments := deployments d; status_writes := status_writes d |})).

(** The body of the loop of [update_env_vars] (lines 264-273), for one
    item of the form. *)
Definition store_item (bot_id : Z) (form_data : list (string * string))
    (item : string * string) : M Sys unit :=
  let '(key, value) := item in
  if String.prefix "env_key_" key then
    let index := str_replace "env_key_" EmptyString key in
    let value_key := "env_value_" +:+ index in
    match form_get form_data value_key with
    | Some v =>
        if truthy value && truthy (strip value) then
          add_env_var {| ev_bot_id := bot_id; ev_key := strip value;
                         ev_value := v |}
        else ret tt
    | None => ret tt
    end
  else ret tt.

(** [main.py], lines 245-277. *)
Definition update_env_vars (bot_id : Z) (form_data : list (string * string))
    : M Sys Response :=
  found <- gets (λ s, query_bot bot_id (db s));;
  match found with
  | None => raise (HTTPException 404 "Bot not found")
  | Some bot =>
      delete_env_vars bot_id;;
      for_each form_data (store_item bot_id form_data);;
      ret (bot_page bot_id)
  end.

(** ** Vocabulary of the further properties *)

(** [w] holds the same containers, images, files and directories as
    [w0], behind the same connection. *)
Definition same_resources (w0 w : World) : Prop :=
  docker_client w = docker_client w0 ∧ containers w = containers w0 ∧
  images w = images w0 ∧ files w = files w0 ∧ dirs w = dirs w0 ∧
  next_cid w = next_cid w0.

(** [w] holds the same containers and images as [w0]. *)
Definition same_runtime (w0 w : World) : Prop :=
  docker_client w = docker_client w0 ∧ containers w = containers w0 ∧
  images w = images w0.

(** A host where the connection to the daemon was never established. *)
Definition host_without_daemon : World := {|
  docker_client := false; containers := ∅; images := ∅; files := ∅;
  dirs := ∅; faults := [];
  git_outcome := Completed 0 "Cloning into '/srv/bots/alpha'..." EmptyString;
  build_logs := []; next_cid := 1; journal := [];
|}.

(** Bot 1 is running, and the daemon will refuse to start a container:
    the seven calls before the run are served. *)
Definition host_where_run_is_refused : World :=
  set_faults [None; None; None; None; None; None; None;
              Some "500 Server Error: port is already allocated"]
    (host_with_container "running").

(** Bot 1 is running, and its container can be stopped but not removed. *)
Definition host_where_remove_fails : World :=
  set_faults [None; None; Some "409 Client Error: removal already in progress"]
    (host_with_container "running").

(** [code_path] holds a git working copy. *)
Definition has_working_copy (code_path : string) (w : World) : bool :=
  os_path_exists code_path w && os_path_isdir (os_path_join code_path ".git") w.

(** The parent directory of [code_path] can be made: it has a name and
    the file system serves the call. *)
Definition can_make_parent (code_path : string) (w : World) : bool :=
  served w && truthy (os_path_dirname code_path).

(** What git does to the answer of the fetch, once it is reached. *)
Definition fetch_answer (pull : bool) (outcome : GitRun) : bool * string :=
  match outcome with
  | Completed rc out err =>
      if bool_decide (rc = 0) then
        (true, (if pull then "Successfully pulled latest changes:"
                else "Successfully cloned repository:") +:+ nl +:+ out)
      else
        (false, (if pull then "Git pull failed:" else "Git clone failed:")
                +:+ nl +:+ err)
  | TimedOut _ => (false, "Git operation timed out")
  | Crashed msg => (false, "Git operation failed: " +:+ msg)
  end.

(** The remote does not answer: git runs into its timeout. *)
Definition host_where_git_hangs : World := {|
  docker_client := true; containers := ∅; images := ∅; files := ∅;
  dirs := ∅; faults := [];
  git_outcome := TimedOut "Command '['git', 'clone']' timed out after 120 seconds";
  build_logs := []; next_cid := 1; journal := [];
|}.

(** Whether some, or every, character of a string is white space. *)
Fixpoint has_space (s : string) : bool :=
  match s with
  | EmptyString => false
  | String c r => isspace c || has_space r
  end.

Fixpoint all_space (s : string) : bool :=
  match s with
  | EmptyString => true
  | String c r => isspace c && all_space r
  end.

(** A word: not empty, and free of white space. *)
Definition is_word (s : string) : bool := truthy s && negb (has_space s).

(** The bot that [create_bot] puts on record. *)
Definition new_bot (n : Z) (name runtime start_command : string)
    (repo_url : option string) : BotApp :=
  {| b_id := n; b_name := name; b_repo_url := clean_repo_url repo_url;
     b_code_path := "/srv/bots/" +:+ name; b_runtime := runtime;
     b_start_command := start_command |}.

(** A bot of that name is on record. *)
Definition name_taken (name : string) (d : DB) : Prop :=
  name ∈ (b_name <$> bots d).

(** The row, if any, that one item of the form is stored as. *)
Definition env_var_of_item (bot_id : Z) (form_data : list (string * string))
    (item : string * string) : option BotEnvVar :=
  let '(key, value) := item in
  if String.prefix "env_key_" key then
    match form_get form_data
            ("env_value_" +:+ str_replace "env_key_" EmptyString key) with
    | Some v =>
        if truthy value && truthy (strip value) then
          Some {| ev_bot_id := bot_id; ev_key := strip value; ev_value := v |}
        else None
    | None => None
    end
  else None.

(** The rows a form is stored as, in the order of its items. *)
Definition submitted_env_vars (bot_id : Z) (form_data : list (string * string))
    : list BotEnvVar :=
  omap (env_var_of_item bot_id form_data) form_data.

(** The rows of the other bots. *)
Definition env_vars_of_others (bot_id : Z) (evs : list BotEnvVar)
    : list BotEnvVar :=
  List.filter (λ ev, negb (bool_decide (ev_bot_id ev = bot_id))) evs.

(** The rows of one bot: [bot.env_vars]. *)
Definition env_vars_of_bot (bot_id : Z) (evs : list BotEnvVar)
    : list BotEnvVar :=
  List.filter (λ ev, bool_decide (ev_bot_id ev = bot_id)) evs.

(** The rows with a given key. *)
Definition with_key (k : string) (evs : list BotEnvVar) : list BotEnvVar :=
  List.filter (λ ev, (ev_key ev =? k)%string) evs.

(** A host where the code of bot 2 is on disk from an earlier upload. *)
Definition host_with_old_code : World :=
  set_dirs (λ ds, ds ∪ {["/srv/bots/beta"]})
    (set_files (insert "/srv/bots/beta/bot.py" "print('old')") fresh_host).

(** ** Accounts and sessions ([auth.py]; [main.py], lines 56-122) *)

(** A row of [users] ([models.py], lines 7-13). *)
Record User := {
  u_id : Z;
  u_email : string;
  u_password_hash : string;
}.

(** What the login handler answers. *)
Inductive LoginAnswer :=
  | LoginPage (error : string)          (* login.html *)
  | LoggedIn (r : Response).

Section Auth.

(** [bcrypt.hashpw] and [bcrypt.checkpw], on the strings that the code
    encodes and decodes around them. *)
Variable hashpw : string → string → string.
Variable checkpw : string → string → bool.

(** [serializer.dumps({"user_id": n})], and [serializer.loads(token,
    max_age=...)] for the tokens of this serializer: the user id of the
    payload, or [None] where [loads] raises (bad signature, expired). *)
Variable dumps : Z → string.
Variable loads : string → option Z.

(** [auth.py], lines 14-18; the salt is what [bcrypt.gensalt()] drew. *)
Definition hash_password (salt password : string) : string :=
  hashpw password salt.

(** Lines 21-23. *)
Definition verify_password (password password_hash : string) : bool :=
  checkpw password password_hash.

(** Lines 26-28. *)
Definition create_session_token (user_id : Z) : string := dumps user_id.

(** Lines 31-37. *)
Definition verify_session_token (token : string) : option Z := loads token.

(** [db.query(User).filter(User.email == email).first()]. *)
Definition query_user_by_email (email : string) (users : list User)
    : option User :=
  List.find (λ u, (u_email u =? email)%string) users.

(** [db.query(User).filter(User.id == user_id).first()]. *)
Definition query_user (user_id : Z) (users : list User) : option User :=
  List.find (λ u, bool_decide (u_id u = user_id)) users.

(** Lines 40-47. *)
Definition authenticate_user (users : list User) (email password : string)
    : option User :=
  match query_user_by_email email users with
  | None => None
  | Some user =>
      if negb (verify_password password (u_password_hash user)) then None
      else Some user
  end.

(** The primary key given to the next user. *)
Definition fresh_user_id (users : list User) : Z :=
  1 + foldr (λ u, Z.max (u_id u)) 0 users.

(** Lines 50-60. *)
Definition create_default_admin_user (salt : string) (users : list User)
    : list User :=
  match query_user_by_email "admin@example.com" users with
  | Some _ => users
  | None =>
      users ++ [{| u_id := fresh_user_id users;
                   u_email := "admin@example.com";
                   u_password_hash := hash_password salt "admin123" |}]
  end.

(** [main.py], lines 56-70; [request.session] is a dictionary. *)
Definition get_current_user (session : gmap string string)
    (users : list User) : Res User :=
  match session !! "session_token" with
  | None => Raise (HTTPException 401 "Not authenticated")
  | Some session_token =>
      if negb (truthy session_token) then
        Raise (HTTPException 401 "Not authenticated")
      else
        match verify_session_token session_token with
        | None => Raise (HTTPException 401 "Invalid session")
        | Some user_id =>
            match query_user user_id users with
            | None => Raise (HTTPException 401 "User not found")
            | Some user => Ok user
            end
        end
  end.

(** Lines 74-79. *)
Definition get_current_user_optional (session : gmap string string)
    (users : list User) : Res (option User) :=
  match get_current_user session users with
  | Ok user => Ok (Some user)
  | Raise (HTTPException _ _) => Ok None
  | Raise e => Raise e
  end.

(** Lines 92-111: the answer and the session after it. *)
Definition login (users : list User) (email password : string)
    (session : gmap string string) : LoginAnswer * gmap string string :=
  match authenticate_user users email password with
  | None => (LoginPage "Invalid email or password", session)
  | Some user =>
      let session_token := create_session_token (u_id user) in
      (LoggedIn (RedirectResponse "/bots" 303),
       <["session_token" := session_token]> session)
  end.

(** Lines 114-118. *)
Definition logout (session : gmap string string)
    : Response * gmap string string :=
  (RedirectResponse "/login" 303, ∅).

End Auth.

(** A toy password hash and a toy serializer, to run the handlers on. *)
Definition toy_hashpw (password salt : string) : string := salt +:+ password.
Definition toy_checkpw (password password_hash : string) : bool :=
  String.eqb password_hash ("salt$" +:+ password).
Definition toy_dumps (n : Z) : string := "user-" +:+ str n.
Definition toy_loads (token : string) : option Z :=
  if String.eqb token "user-1" then Some 1
  else if String.eqb token "user-2" then Some 2 else None.

(** * Properties *)

Lemma str_inj (a b : Z) : str a = str b → a = b.
Proof. unfold str. apply (inj pretty). Qed.

Lemma length_append (s t : string) :
  String.length (s +:+ t) = (String.length s + String.length t)%nat.
Proof. induction s as [|c s IH]; simpl; [done|by rewrite IH]. Qed.

Lemma append_inj_r (p s t : string) : p +:+ s = p +:+ t → s = t.
Proof.
  induction p as [|c p IH]; simpl; [done|].
  intros H. injection H as H. by apply IH.
Qed.

Lemma append_inj_l (s t q : string) : s +:+ q = t +:+ q → s = t.
Proof.
  intros H.
  assert (Hlen : String.length s = String.length t).
  { apply (f_equal String.length) in H.
    rewrite !length_append in H. lia. }
  revert t H Hlen. induction s as [|c s IH]; intros [|d t] H Hlen;
    simpl in *; try done.
  injection H as -> H. f_equal. apply IH; [done|lia].
Qed.

(** ** Rules of the program logic *)

Section Rules.
Context {Σ : Type}.
Implicit Types (P I : Σ → Prop) (E : Exc → Σ → Prop).

Lemma hoare_ret {A} (Q : A → Σ → Prop) E (a : A) : hoare (Q a) (ret a) Q E.
Proof. by intros s Hs. Qed.

Lemma hoare_raise {A} (Q : A → Σ → Prop) E e :
  hoare (E e) (raise (A:=A) e) Q E.
Proof. by intros s Hs. Qed.

Lemma hoare_gets {A} P (f : Σ → A) E : hoare P (gets f) (λ _, P) E.
Proof. by intros s Hs. Qed.

Lemma hoare_modify P (f : Σ → Σ) (Q : unit → Σ → Prop) E :
  (∀ s, P s → Q tt (f s)) → hoare P (modify f) Q E.
Proof. intros H s Hs. by apply H. Qed.

Lemma hoare_bind {A B} P (m : M Σ A) (k : A → M Σ B) Q1 Q E :
  hoare P m Q1 E → (∀ a, hoare (Q1 a) (k a) Q E) → hoare P (bind m k) Q E.
Proof.
  intros Hm Hk s Hs. unfold bind. specialize (Hm s Hs).
  destruct (m s) as [[a|e] s']; [by apply Hk|done].
Qed.

Lemma hoare_try_except {A} P (m : M Σ A) h Q E1 E :
  hoare P m Q E1 → (∀ e, hoare (E1 e) (h e) Q E) →
  hoare P (try_except m h) Q E.
Proof.
  intros Hm Hh s Hs. unfold try_except. specialize (Hm s Hs).
  destruct (m s) as [[a|e] s']; [done|by apply Hh].
Qed.

Lemma hoare_weaken {A} P P' (m : M Σ A) (Q Q' : A → Σ → Prop) E E' :
  hoare P' m Q' E' → (∀ s, P s → P' s) → (∀ a s, Q' a s → Q a s) →
  (∀ e s, E' e s → E e s) → hoare P m Q E.
Proof.
  intros Hm HP HQ HE s Hs. specialize (Hm s (HP s Hs)).
  destruct (m s) as [[a|e] s']; auto.
Qed.

Lemma inv_ret {A} I (a : A) : inv I (ret a).
Proof. by intros s Hs. Qed.

Lemma inv_raise {A} I e : inv I (raise (A:=A) e).
Proof. by intros s Hs. Qed.

Lemma inv_gets {A} I (f : Σ → A) : inv I (gets f).
Proof. by intros s Hs. Qed.

Lemma inv_modify I (f : Σ → Σ) : (∀ s, I s → I (f s)) → inv I (modify f).
Proof. intros H s Hs. by apply H. Qed.

Lemma inv_bind {A B} I (m : M Σ A) (k : A → M Σ B) :
  inv I m → (∀ a, inv I (k a)) → inv I (bind m k).
Proof. intros Hm Hk. eapply hoare_bind; [exact Hm|exact Hk]. Qed.

Lemma inv_try_except {A} I (m : M Σ A) h :
  inv I m → (∀ e, inv I (h e)) → inv I (try_except m h).
Proof. intros Hm Hh. eapply hoare_try_except; [exact Hm|exact Hh]. Qed.

Lemma inv_snd {A} I (m : M Σ A) s : inv I m → I s → I (m s).2.
Proof. intros Hm Hs. specialize (Hm s Hs). by destruct (m s) as [[?|?] ?]. Qed.

Lemma tinv_catching {A} I (m : M Σ A) h : inv I m → tinv I (catching m h).
Proof.
  intros Hm s Hs. unfold catching. specialize (Hm s Hs).
  by destruct (m s) as [[a|e] s'].
Qed.

Lemma inv_call {A} I (f : Σ → A * Σ) : tinv I f → inv I (call f).
Proof.
  intros Hf s Hs. unfold call. specialize (Hf s Hs).
  by destruct (f s) as [a s'].
Qed.
End Rules.

(** Breaks a goal [inv I m] down along the structure of [m]. *)
Ltac inv_step :=
  lazymatch goal with
  | |- inv _ (bind _ _) => apply inv_bind; [|intros ?]
  | |- inv _ (ret _) => apply inv_ret
  | |- inv _ (raise _) => apply inv_raise
  | |- inv _ (gets _) => apply inv_gets
  | |- inv _ (try_except _ _) => apply inv_try_except; [|intros ?]
  | |- inv _ (call _) => apply inv_call
  | |- inv _ (modify _) =>
      let H := fresh in apply inv_modify; intros ? H; exact H
  | |- inv _ (match ?x with _ => _ end) => destruct x
  | |- tinv _ (catching _ _) => apply tinv_catching
  end.

Create HintDb frame.

Ltac inv_auto := repeat inv_step; eauto with frame.

(** ** What the adapter and the fetcher leave alone *)

Lemma calls_since_refl ok w : calls_since ok w w.
Proof. exists []. by rewrite app_nil_r. Qed.

Lemma quiet_refl w : quiet w w.
Proof. split; [done|apply calls_since_refl]. Qed.

Lemma inv_and {Σ A} (I1 I2 : Σ → Prop) (m : M Σ A) :
  inv I1 m → inv I2 m → inv (λ s, I1 s ∧ I2 s) m.
Proof.
  intros H1 H2 s [Hs1 Hs2]. specialize (H1 s Hs1). specialize (H2 s Hs2).
  by destruct (m s) as [[?|?] ?].
Qed.

Lemma tinv_and {Σ A} (I1 I2 : Σ → Prop) (f : Σ → A * Σ) :
  tinv I1 f → tinv I2 f → tinv (λ s, I1 s ∧ I2 s) f.
Proof. intros H1 H2 s [Hs1 Hs2]. split; [by apply H1|by apply H2]. Qed.

Section Calls.
Context (ok : Call → bool) (w0 : World).

Lemma may_fail_calls : inv (calls_since ok w0) may_fail.
Proof.
  intros w Hw. unfold may_fail. by destruct (faults w) as [|[msg|] fs].
Qed.

Lemma record_call_calls c : ok c = true → inv (calls_since ok w0) (record_call c).
Proof.
  intros Hc. apply inv_modify. intros w (l & Hl & Hok).
  exists (l ++ [c]). cbn. rewrite Hl, app_assoc. split; [done|].
  rewrite forallb_app, Hok. cbn. by rewrite Hc.
Qed.

#[local] Hint Resolve may_fail_calls record_call_calls : frame.

Lemma write_file_calls p d : inv (calls_since ok w0) (write_file p d).
Proof. unfold write_file. inv_auto. Qed.

Lemma shutil_copy_calls a b : inv (calls_since ok w0) (shutil_copy a b).
Proof. unfold shutil_copy. inv_auto. Qed.

Lemma os_makedirs_calls p : inv (calls_since ok w0) (os_makedirs p).
Proof. unfold os_makedirs. inv_auto. Qed.

Lemma shutil_rmtree_calls p : inv (calls_since ok w0) (shutil_rmtree p).
Proof. unfold shutil_rmtree. inv_auto. Qed.

Lemma os_remove_calls p : inv (calls_since ok w0) (os_remove p).
Proof. unfold os_remove. inv_auto. Qed.

Lemma extractall_calls ms d : inv (calls_since ok w0) (extractall ms d).
Proof. unfold extractall. inv_auto. Qed.

#[local] Hint Resolve extractall_calls : frame.

Lemma unzip_calls f p d : inv (calls_since ok w0) (unzip f p d).
Proof. unfold unzip. inv_auto. Qed.

Lemma containers_get_calls n :
  ok (ContainersGet n) = true → inv (calls_since ok w0) (containers_get n).
Proof. intros. unfold containers_get. inv_auto. Qed.

Lemma container_stop_calls n t :
  ok (ContainerStop n t) = true → inv (calls_since ok w0) (container_stop n t).
Proof. intros. unfold container_stop. inv_auto. Qed.

Lemma container_remove_calls n :
  ok (ContainerRemove n) = true → inv (calls_since ok w0) (container_remove n).
Proof. intros. unfold container_remove. inv_auto. Qed.

Lemma containers_run_calls i n e c r nw :
  ok (ContainersRun i n e c true r nw) = true →
  inv (calls_since ok w0) (containers_run i n e c r nw).
Proof. intros. unfold containers_run. inv_auto. Qed.

Lemma images_build_calls p t :
  (∀ d, ok (ImagesBuild p t d) = true) →
  inv (calls_since ok w0) (images_build p t).
Proof. intros. unfold images_build. inv_auto. Qed.

Lemma subprocess_run_calls argv cwd t :
  ok (SubprocessRun argv cwd t) = true →
  inv (calls_since ok w0) (subprocess_run argv cwd t).
Proof. intros. unfold subprocess_run. inv_auto. Qed.
End Calls.

Section Untouched.
Context (w0 : World).

Lemma may_fail_untouched : inv (untouched w0) may_fail.
Proof.
  intros w Hw. unfold may_fail. by destruct (faults w) as [|[msg|] fs].
Qed.

Lemma record_call_untouched c : inv (untouched w0) (record_call c).
Proof. unfold record_call. inv_auto. Qed.

#[local] Hint Resolve may_fail_untouched record_call_untouched : frame.

Lemma write_file_untouched p d : inv (untouched w0) (write_file p d).
Proof. unfold write_file. inv_auto. Qed.

Lemma shutil_copy_untouched a b : inv (untouched w0) (shutil_copy a b).
Proof. unfold shutil_copy. inv_auto. Qed.

Lemma os_makedirs_untouched p : inv (untouched w0) (os_makedirs p).
Proof. unfold os_makedirs. inv_auto. Qed.

Lemma images_build_untouched p t : inv (untouched w0) (images_build p t).
Proof. unfold images_build. inv_auto. Qed.

Lemma subprocess_run_untouched argv cwd t :
  inv (untouched w0) (subprocess_run argv cwd t).
Proof. unfold subprocess_run. inv_auto. Qed.
End Untouched.

#[local] Hint Resolve may_fail_calls record_call_calls write_file_calls
  shutil_copy_calls os_makedirs_calls shutil_rmtree_calls os_remove_calls
  extractall_calls unzip_calls containers_get_calls container_stop_calls
  container_remove_calls containers_run_calls images_build_calls
  subprocess_run_calls may_fail_untouched record_call_untouched
  write_file_untouched shutil_copy_untouched os_makedirs_untouched
  images_build_untouched subprocess_run_untouched : frame.

(** Building an image touches no container. *)
Lemma build_bot_image_quiet w0 bot_id code_path :
  tinv (quiet w0) (build_bot_image bot_id code_path).
Proof.
  apply tinv_and; intros w Hw; unfold build_bot_image;
    (destruct (docker_client w); cbn [negb]; [|exact Hw]);
    (apply tinv_catching; [|exact Hw]); inv_auto.
Qed.

(** Fetching the sources touches no container. *)
Lemma clone_or_pull_repo_quiet w0 repo_url code_path :
  tinv (quiet w0) (clone_or_pull_repo repo_url code_path).
Proof.
  apply tinv_and; unfold clone_or_pull_repo; inv_auto.
Qed.

(** ** Running the adapter when every call is served *)

Ltac fields :=
  cbn [fst snd negb id
       docker_client containers images files dirs faults git_outcome
       build_logs next_cid journal
       set_containers set_images set_files set_dirs set_faults set_next_cid
       set_journal] in *.

Ltac unfold_world :=
  unfold catching, try_except, containers_get, container_stop,
    container_remove, containers_run, images_build, write_file, shutil_copy,
    os_makedirs, may_fail, record_call, bind, ret, raise, gets, modify, call;
  fields.

Tactic Notation "crunch" "with" tactic3(rw) :=
  unfold_world; repeat (progress (fields; rw)).

Lemma stop_absent bot_id w :
  docker_client w = true → faults w = [] →
  containers w !! get_container_name bot_id = None →
  stop_bot_container bot_id w =
    ((true, "Container " +:+ get_container_name bot_id +:+ " is not running"),
     set_journal (journal w ++ [ContainersGet (get_container_name bot_id)]) w).
Proof.
  intros Hdc Hf Hc. unfold stop_bot_container. rewrite Hdc.
  crunch with (rewrite ?Hf, ?Hc). done.
Qed.

Lemma stop_present bot_id w c :
  docker_client w = true → faults w = [] →
  containers w !! get_container_name bot_id = Some c →
  ∃ w',
    stop_bot_container bot_id w =
      ((true, "Container " +:+ get_container_name bot_id
              +:+ " stopped successfully"), w') ∧
    docker_client w' = true ∧ faults w' = [] ∧
    containers w' = delete (get_container_name bot_id) (containers w) ∧
    images w' = images w ∧ files w' = files w ∧ dirs w' = dirs w ∧
    next_cid w' = next_cid w ∧
    journal w' = journal w ++
      [ContainersGet (get_container_name bot_id);
       ContainerStop (get_container_name bot_id) 10;
       ContainerRemove (get_container_name bot_id)].
Proof.
  intros Hdc Hf Hc. unfold stop_bot_container. rewrite Hdc.
  crunch with (rewrite ?Hf, ?Hc, ?lookup_insert_eq).
  eexists; split; [done|]. fields.
  rewrite delete_insert_eq, <- !app_assoc. done.
Qed.

Lemma stop_served bot_id w :
  docker_client w = true → faults w = [] →
  ∃ msg w',
    stop_bot_container bot_id w = ((true, msg), w') ∧
    docker_client w' = true ∧ faults w' = [] ∧
    containers w' = delete (get_container_name bot_id) (containers w) ∧
    images w' = images w ∧ files w' = files w ∧ dirs w' = dirs w ∧
    next_cid w' = next_cid w.
Proof.
  intros Hdc Hf.
  destruct (containers w !! get_container_name bot_id) as [c|] eqn:Hc.
  - destruct (stop_present bot_id w c Hdc Hf Hc)
      as (w' & -> & ? & ? & ? & ? & ? & ? & ? & ?).
    by eexists _, w'.
  - rewrite (stop_absent bot_id w Hdc Hf Hc). eexists _, _.
    split; [done|]. fields. by rewrite delete_id.
Qed.

Lemma run_served bot_id env_vars start_command w :
  docker_client w = true → faults w = [] →
  is_Some (images w !! get_image_name bot_id) →
  ∃ msg c w',
    run_bot_container bot_id env_vars start_command w = ((true, msg), w') ∧
    docker_client w' = true ∧ faults w' = [] ∧
    images w' = images w ∧ files w' = files w ∧ dirs w' = dirs w ∧
    containers w' = <[get_container_name bot_id := c]> (containers w) ∧
    running_state c = wanted_state bot_id env_vars start_command ∧
    journal w' = journal w ++
      replacement_calls bot_id env_vars start_command
        (bool_decide (is_Some (containers w !! get_container_name bot_id))).
Proof.
  intros Hdc Hf [d Hi]. unfold run_bot_container. rewrite Hdc.
  destruct (containers w !! get_container_name bot_id) as [c|] eqn:Hc.
  - crunch with (rewrite ?Hf, ?Hc, ?Hi, ?lookup_insert_eq, ?lookup_delete_eq).
    eexists _, _, _. split; [done|]. fields.
    rewrite delete_insert_eq, insert_delete_eq, <- !app_assoc. done.
  - crunch with (rewrite ?Hf, ?Hc, ?Hi).
    eexists _, _, _. split; [done|]. fields.
    rewrite <- !app_assoc. done.
Qed.

Lemma query_bot_id bot_id d bot : query_bot bot_id d = Some bot → b_id bot = bot_id.
Proof.
  unfold query_bot. intros H. apply find_some in H as [_ H].
  by apply bool_decide_eq_true in H.
Qed.

Lemma stop_bot_served bot_id bot d w :
  query_bot bot_id d = Some bot →
  docker_client w = true → faults w = [] →
  (stop_bot bot_id {| db := d; world := w |}).1 = Ok (bot_page bot_id).
Proof.
  intros Hq Hdc Hf. unfold stop_bot, bind, gets, in_world, call.
  cbn [db world]. rewrite Hq. rewrite (query_bot_id _ _ _ Hq).
  cbn [db world].
  destruct (stop_served bot_id w Hdc Hf) as (msg & w' & -> & _). done.
Qed.

Lemma os_path_exists_file p w t :
  files w !! p = Some t → os_path_exists p w = true.
Proof. intros H. unfold os_path_exists. apply bool_decide_eq_true_2. eauto. Qed.

Lemma os_path_exists_neither p w :
  files w !! p = None → p ∉ dirs w → os_path_exists p w = false.
Proof.
  intros Hf Hd. unfold os_path_exists. apply bool_decide_eq_false_2.
  intros [[t Ht]|?]; [congruence|done].
Qed.

(** ** The registry *)

Lemma fresh_id_above ds : Forall (λ d, d_id d < fresh_id ds) ds.
Proof.
  unfold fresh_id. induction ds as [|d ds IH]; constructor; cbn.
  - lia.
  - eapply Forall_impl; [exact IH|]. cbn. intros; lia.
Qed.

Lemma update_others (g : Deployment → Deployment) n ds :
  Forall (λ d, d_id d < n) ds →
  (λ r, if bool_decide (d_id r = n) then g r else r) <$> ds = ds.
Proof.
  induction 1 as [|d ds Hd _ IH]; cbn; [done|].
  rewrite IH, bool_decide_eq_false_2 by lia. done.
Qed.

Lemma status_of_last n bot_id v lg ds :
  Forall (λ d, d_id d < n) ds →
  status_of n (ds ++ [row n bot_id v lg]) = Some v.
Proof.
  unfold status_of. induction 1 as [|d ds Hd _ IH]; cbn.
  - by rewrite bool_decide_eq_true_2.
  - rewrite bool_decide_eq_false_2 by lia. exact IH.
Qed.

Lemma add_deployment_tracks bot_id s :
  ∃ s1,
    add_deployment bot_id s = (Ok (fresh_id (deployments (db s))), s1) ∧
    world s1 = world s ∧
    tracks (db s) (fresh_id (deployments (db s))) bot_id "pending" None []
      (db s1).
Proof.
  unfold add_deployment, bind, gets, modify, ret, tracks. cbn.
  eexists. split; [done|]. cbn. by rewrite app_nil_r.
Qed.

Lemma set_status_tracks d0 bot_id v lg ws v' s :
  tracks d0 (fresh_id (deployments d0)) bot_id v lg ws (db s) →
  set_status (fresh_id (deployments d0)) v' s =
    (Ok tt, (set_status (fresh_id (deployments d0)) v' s).2) ∧
  world (set_status (fresh_id (deployments d0)) v' s).2 = world s ∧
  tracks d0 (fresh_id (deployments d0)) bot_id v' lg
    (ws ++ [(fresh_id (deployments d0), v, v')])
    (db (set_status (fresh_id (deployments d0)) v' s).2).
Proof.
  intros (Hb & He & Hd & Hw). unfold set_status, modify, tracks. cbn.
  rewrite Hd, Hw, fmap_app, update_others by apply fresh_id_above.
  rewrite status_of_last by apply fresh_id_above. cbn.
  rewrite bool_decide_eq_true_2 by done. by rewrite app_assoc.
Qed.

Lemma set_log_tracks d0 bot_id v lg ws text s :
  tracks d0 (fresh_id (deployments d0)) bot_id v lg ws (db s) →
  set_log (fresh_id (deployments d0)) text s =
    (Ok tt, (set_log (fresh_id (deployments d0)) text s).2) ∧
  world (set_log (fresh_id (deployments d0)) text s).2 = world s ∧
  tracks d0 (fresh_id (deployments d0)) bot_id v (Some text) ws
    (db (set_log (fresh_id (deployments d0)) text s).2).
Proof.
  intros (Hb & He & Hd & Hw). unfold set_log, modify, tracks. cbn.
  rewrite Hd, Hw, fmap_app, update_others by apply fresh_id_above. cbn.
  rewrite bool_decide_eq_true_2 by done. done.
Qed.

Lemma finalized_tracks d0 bot_id v lg ws v' logs s :
  tracks d0 (fresh_id (deployments d0)) bot_id v lg ws (db s) →
  world (finalized (fresh_id (deployments d0)) v' logs s) = world s ∧
  tracks d0 (fresh_id (deployments d0)) bot_id v' (Some (join nl logs))
    (ws ++ [(fresh_id (deployments d0), v, v')])
    (db (finalized (fresh_id (deployments d0)) v' logs s)).
Proof.
  intros H. unfold finalized, bind.
  destruct (set_status_tracks _ _ _ _ _ v' _ H) as (-> & Hw1 & H1). cbn.
  destruct (set_log_tracks _ _ _ _ _ (join nl logs) _ H1) as (-> & Hw2 & H2).
  cbn. split; [congruence|done].
Qed.

(** ** The deploy handler, step by step *)

Lemma deploy_steps_eq bot_id bot n s :
  deploy_steps bot_id bot n s =
    let '((ok1, m1), w1) :=
      clone_or_pull_repo (default EmptyString (b_repo_url bot)) (b_code_path bot)
        (world s) in
    if negb ok1 then
      (Raise (HTTPException 500 m1),
       finalized n "failed" [m1] {| db := db s; world := w1 |})
    else
      let '((ok2, m2), w2) :=
        build_bot_image (b_id bot) (b_code_path bot) w1 in
      if negb ok2 then
        (Raise (HTTPException 500 m2),
         finalized n "failed" [m1; m2] {| db := db s; world := w2 |})
      else
        let '((ok3, m3), w3) :=
          restart_bot_container (b_id bot) (env_dict bot (db s))
            (b_start_command bot) w2 in
        (Ok (bot_page bot_id),
         finalized n (if ok3 then "success" else "failed") [m1; m2; m3]
           {| db := db s; world := w3 |}).
Proof.
  unfold deploy_steps, finalized, bind, in_world, call, gets, raise, ret,
    set_status, set_log, modify.
  cbn [db world].
  destruct (clone_or_pull_repo _ _ _) as [[[] m1] w1]; cbn [negb db world];
    [|done].
  destruct (build_bot_image _ _ _) as [[[] m2] w2]; cbn [negb db world];
    [|done].
  by destruct (restart_bot_container _ _ _ _) as [[[] m3] w3].
Qed.

Lemma get_bot_status_untouched bot_id w0 w :
  untouched w0 w → faults w = faults w0 →
  (get_bot_status bot_id w).1 = (get_bot_status bot_id w0).1.
Proof.
  intros [Hdc Hc] Hf. unfold get_bot_status. rewrite Hdc.
  destruct (docker_client w0); cbn [negb]; [|done].
  unfold_world. rewrite Hf.
  destruct (faults w0) as [|[msg|] fs]; fields; rewrite ?Hc; try done;
    (destruct (containers w0 !! get_container_name bot_id) as [c|];
     [by destruct (c_status c =? "running")%string|done]).
Qed.

(** ** Calls made by the adapter and by the handlers *)

Section AdapterCalls.
Context (ok : Call → bool) (w0 : World).
Context (ok_lifecycle : ∀ c, lifecycle c = true → ok c = true).
Context (ok_build : ∀ p t d, ok (ImagesBuild p t d) = true).

Lemma build_bot_image_calls bot_id code_path :
  tinv (calls_since ok w0) (build_bot_image bot_id code_path).
Proof.
  intros w Hw; unfold build_bot_image.
  destruct (docker_client w); cbn [negb]; [|exact Hw].
  apply tinv_catching; [|exact Hw]. inv_auto.
Qed.

Lemma stop_bot_container_calls bot_id :
  tinv (calls_since ok w0) (stop_bot_container bot_id).
Proof.
  intros w Hw; unfold stop_bot_container.
  destruct (docker_client w); cbn [negb]; [|exact Hw].
  apply tinv_catching; [|exact Hw]. inv_auto.
Qed.

Lemma run_bot_container_calls bot_id env_vars start_command :
  tinv (calls_since ok w0) (run_bot_container bot_id env_vars start_command).
Proof.
  intros w Hw; unfold run_bot_container.
  destruct (docker_client w); cbn [negb]; [|exact Hw].
  apply tinv_catching; [|exact Hw]. inv_auto.
Qed.

Lemma restart_bot_container_calls bot_id env_vars start_command :
  tinv (calls_since ok w0)
    (restart_bot_container bot_id env_vars start_command).
Proof.
  intros w Hw. unfold restart_bot_container.
  pose proof (stop_bot_container_calls bot_id w Hw) as H1.
  destruct (stop_bot_container bot_id w) as [[[] m1] w1]; cbn [negb fst snd] in *;
    [|exact H1].
  pose proof (run_bot_container_calls bot_id env_vars start_command w1 H1) as H2.
  by destruct (run_bot_container _ _ _ w1) as [[ok2 m2] w2].
Qed.
End AdapterCalls.

Lemma inv_in_world {A} (J : World → Prop) (m : M World A) :
  inv J m → inv (λ s : Sys, J (world s)) (in_world m).
Proof.
  intros Hm s Hs. unfold in_world. specialize (Hm (world s) Hs).
  by destruct (m (world s)) as [[a|e] w].
Qed.

Lemma inv_in_world_db {A} (K : DB → Prop) (m : M World A) :
  inv (λ s : Sys, K (db s)) (in_world m).
Proof.
  intros s Hs. unfold in_world. by destruct (m (world s)) as [[a|e] w].
Qed.

Lemma inv_with_logs {A} (I : Sys → Prop) (m : M Sys A) :
  inv I m → inv (λ ls : list string * Sys, I ls.2) (with_logs m).
Proof.
  intros Hm [logs s] Hs. unfold with_logs. cbn [fst snd] in *.
  specialize (Hm s Hs). by destruct (m s) as [[a|e] s'].
Qed.

Lemma inv_logs_append (I : Sys → Prop) msg :
  inv (λ ls : list string * Sys, I ls.2) (logs_append msg).
Proof. by intros [logs s] Hs. Qed.

Lemma inv_set_status_world (J : World → Prop) n v :
  inv (λ s : Sys, J (world s)) (set_status n v).
Proof. by intros s Hs. Qed.

Lemma inv_set_log_world (J : World → Prop) n v :
  inv (λ s : Sys, J (world s)) (set_log n v).
Proof. by intros s Hs. Qed.

Lemma inv_add_deployment_world (J : World → Prop) bot_id :
  inv (λ s : Sys, J (world s)) (add_deployment bot_id).
Proof. by intros s Hs. Qed.

#[local] Hint Resolve inv_logs_append inv_set_status_world
  inv_set_log_world inv_add_deployment_world : frame.

Ltac lift_step :=
  lazymatch goal with
  | |- inv _ (with_logs _) => apply (inv_with_logs (λ s, _ (world s)))
  | |- inv _ (in_world _) => apply inv_in_world
  | |- inv _ (logs_append _) => by intros [? ?] ?
  | _ => inv_step
  end.

(** The upload handler starts no subprocess: it never fetches. *)
Lemma upload_bot_code_no_subprocess w0 bot_id file :
  inv (λ s, calls_since (λ c, negb (is_subprocess c)) w0 (world s))
    (upload_bot_code bot_id file).
Proof.
  assert (Hsteps : ∀ bot n,
    inv (λ ls : list string * Sys,
           calls_since (λ c, negb (is_subprocess c)) w0 (world ls.2))
      (upload_steps bot_id bot n file)).
  { intros bot n. unfold upload_steps.
    repeat lift_step; eauto with frame.
    - apply build_bot_image_calls; done.
    - apply restart_bot_container_calls; by intros []. }
  unfold upload_bot_code. apply inv_bind; [apply inv_gets|].
  intros [bot|]; [|apply inv_raise].
  apply inv_bind; [apply inv_add_deployment_world|].
  intros n s Hs.
  assert (Hh : ∀ e,
    inv (λ ls : list string * Sys,
           calls_since (λ c, negb (is_subprocess c)) w0 (world ls.2))
      (logs_append ("Error: " +:+ str_exc e);;
       with_logs (set_status n "failed"))).
  { intros e. repeat lift_step; eauto with frame. }
  pose proof (inv_try_except _ _ _ (Hsteps bot n) Hh ([], s) Hs) as Htry.
  destruct (try_except _ _ _) as [r [logs s']]. by destruct r.
Qed.

Lemma world_finalized n v logs s : world (finalized n v logs s) = world s.
Proof. done. Qed.

(** What [deploy_steps] answers and does to the world does not depend on
    the deployments on record. *)
Lemma deploy_steps_independent bot_id bot n n' s s' :
  env_vars (db s') = env_vars (db s) → world s' = world s →
  (deploy_steps bot_id bot n' s').1 = (deploy_steps bot_id bot n s).1 ∧
  world (deploy_steps bot_id bot n' s').2
    = world (deploy_steps bot_id bot n s).2.
Proof.
  intros He Hw. rewrite !deploy_steps_eq. unfold env_dict. rewrite He, Hw.
  destruct (clone_or_pull_repo _ _ _) as [[[] m1] w1]; cbn [negb]; [|done].
  destruct (build_bot_image _ _ _) as [[[] m2] w2]; cbn [negb]; [|done].
  by destruct (restart_bot_container _ _ _ _) as [[ok3 m3] w3].
Qed.

Lemma deploy_bot_answers bot_id s :
  (deploy_bot bot_id s).1 = Ok (bot_page bot_id) ∨
  ∃ code detail,
    (deploy_bot bot_id s).1 = Raise (HTTPException code detail) ∧
    (code = 404 ∨ code = 400 ∨ code = 500).
Proof.
  unfold deploy_bot, bind, gets.
  destruct (query_bot bot_id (db s)) as [bot|]; [|right; by eexists _, _; eauto].
  destruct (truthy_opt (b_repo_url bot)); cbn [negb];
    [|right; eexists _, _; eauto].
  destruct (add_deployment_tracks bot_id s) as (s1 & -> & _).
  rewrite deploy_steps_eq.
  destruct (clone_or_pull_repo _ _ _) as [[[] m1] w1]; cbn [negb];
    [|right; eexists _, _; eauto].
  destruct (build_bot_image _ _ _) as [[[] m2] w2]; cbn [negb];
    [|right; eexists _, _; eauto].
  destruct (restart_bot_container _ _ _ _) as [[ok3 m3] w3]. by left.
Qed.

Lemma deploy_bot_creates_record bot_id bot s :
  query_bot bot_id (db s) = Some bot →
  truthy_opt (b_repo_url bot) = true →
  ∃ v lg ws,
    tracks (db s) (fresh_id (deployments (db s))) bot_id v lg ws
      (db (deploy_bot bot_id s).2) ∧
    terminal v ∧ ws = [(fresh_id (deployments (db s)), "pending", v)].
Proof.
  intros Hq Hrepo. unfold deploy_bot, bind, gets. rewrite Hq, Hrepo.
  cbn [negb].
  destruct (add_deployment_tracks bot_id s) as (s1 & -> & Hw & Ht).
  rewrite deploy_steps_eq.
  destruct (clone_or_pull_repo _ _ _) as [[[] m1] w1]; cbn [negb fst snd].
  - destruct (build_bot_image _ _ _) as [[[] m2] w2]; cbn [negb fst snd].
    + destruct (restart_bot_container _ _ _ _) as [[ok3 m3] w3].
      cbn [fst snd].
      eexists _, _, _. split; [by eapply finalized_tracks|].
      split; [|done]. destruct ok3; [by left|by right].
    + eexists _, _, _. split; [by eapply finalized_tracks|].
      split; [by right|done].
  - eexists _, _, _. split; [by eapply finalized_tracks|].
    split; [by right|done].
Qed.

(** ** The upload handler, step by step *)

Lemma hoare_bind_inv {Σ A B} (I : Σ → Prop) (m : M Σ A) (k : A → M Σ B)
    (Q : B → Σ → Prop) (E : Exc → Σ → Prop) :
  inv I m → (∀ e s, I s → E e s) → (∀ a, hoare I (k a) Q E) →
  hoare I (bind m k) Q E.
Proof.
  intros Hm HE Hk. eapply hoare_bind; [|exact Hk].
  eapply hoare_weaken; [exact Hm|done|done|exact HE].
Qed.

Lemma hoare_with_logs {A} (P : Sys → Prop) (m : M Sys A) Q E :
  hoare P m Q E →
  hoare (λ ls : list string * Sys, P ls.2) (with_logs m)
    (λ a ls, Q a ls.2) (λ e ls, E e ls.2).
Proof.
  intros Hm [logs s] Hs. unfold with_logs. cbn [fst snd] in *.
  specialize (Hm s Hs). by destruct (m s) as [[a|e] s'].
Qed.

Section Upload.
Context (d0 : DB) (bot_id : Z).
Let n := fresh_id (deployments d0).

Lemma set_status_phase v ws v' E :
  hoare (phase d0 n bot_id v ws) (set_status n v')
    (λ _, phase d0 n bot_id v' (ws ++ [(n, v, v')])) E.
Proof.
  intros s [lg Hs].
  destruct (set_status_tracks d0 bot_id v lg ws v' s Hs) as (-> & _ & H).
  by exists lg.
Qed.

Lemma set_status_logs v ws v' (E : Exc → list string * Sys → Prop) :
  hoare (λ ls : list string * Sys, phase d0 n bot_id v ws ls.2)
    (with_logs (set_status n v'))
    (λ _ ls, phase d0 n bot_id v' (ws ++ [(n, v, v')]) ls.2) E.
Proof.
  intros [logs s] [lg Hs]. unfold with_logs. cbn [fst snd] in *.
  destruct (set_status_tracks d0 bot_id v lg ws v' s Hs) as (-> & _ & H).
  by exists lg.
Qed.

Lemma set_log_phase v ws text : inv (phase d0 n bot_id v ws) (set_log n text).
Proof.
  intros s [lg Hs].
  destruct (set_log_tracks d0 bot_id v lg ws text s Hs) as (-> & _ & H).
  by eexists.
Qed.

Lemma in_world_phase {A} v ws (m : M World A) :
  inv (phase d0 n bot_id v ws) (in_world m).
Proof.
  apply (inv_in_world_db (λ d, ∃ lg, tracks d0 n bot_id v lg ws d)).
Qed.

(** Steps of the upload that leave the registry alone. *)
Ltac registry_kept :=
  lazymatch goal with
  | |- inv _ (with_logs (in_world _)) =>
      apply (inv_with_logs (phase d0 n bot_id _ _)), in_world_phase
  | |- inv _ (with_logs (gets _)) =>
      apply (inv_with_logs (phase d0 n bot_id _ _)), inv_gets
  | |- inv _ (with_logs (set_log _ _)) =>
      apply (inv_with_logs (phase d0 n bot_id _ _)), set_log_phase
  | |- inv _ (logs_append _) => by intros [? ?] ?
  | |- inv _ (gets _) => apply inv_gets
  | |- inv _ (ret _) => apply inv_ret
  | |- inv _ (if ?b then _ else _) => destruct b; registry_kept
  end.

Ltac registry_step :=
  apply hoare_bind_inv; [registry_kept|by (intros; left)|intros ?].

Ltac open_pair :=
  lazymatch goal with
  | |- hoare _ (match ?r with _ => _ end) _ _ => destruct r as [success message]
  end.

(** The [try] block of the upload ends with the deployment finalized;
    when it raises, the deployment is still pending or was just marked
    failed. *)
Lemma upload_steps_phase bot file :
  hoare (λ ls : list string * Sys, phase d0 n bot_id "pending" [] ls.2)
    (upload_steps bot_id bot n file)
    (λ _ ls, ∃ v, terminal v ∧
                  phase d0 n bot_id v [(n, "pending", v)] ls.2)
    (λ _ ls, phase d0 n bot_id "pending" [] ls.2 ∨
             phase d0 n bot_id "failed" [(n, "pending", "failed")] ls.2).
Proof.
  unfold upload_steps. do 9 registry_step. open_pair. registry_step.
  eapply hoare_bind with (Q1 := λ _ ls, phase d0 n bot_id "pending" [] ls.2).
  { destruct success; cbn [negb]; [by intros ? ?|].
    eapply hoare_bind; [apply (set_status_logs "pending" [] "failed")|].
    intros ?. cbv beta. cbn [app].
    eapply hoare_weaken with
      (P' := λ ls, phase d0 n bot_id "failed" [(n, "pending", "failed")] ls.2)
      (Q' := λ _ _, False)
      (E' := λ _ ls, phase d0 n bot_id "failed" [(n, "pending", "failed")] ls.2);
      [|done|done|by (intros; right)].
    apply hoare_bind_inv; [registry_kept|done|intros logs].
    apply hoare_bind_inv; [registry_kept|done|intros ?].
    by intros ? ?. }
  intros ?. cbv beta. do 2 registry_step. clear success message.
  open_pair. registry_step. destruct success.
  - eapply hoare_weaken;
      [apply (set_status_logs "pending" [] "success")|done| |].
    + intros ? ls H. exists "success". split; [by left|exact H].
    + intros e ls H. exact H.
  - eapply hoare_weaken;
      [apply (set_status_logs "pending" [] "failed")|done| |].
    + intros ? ls H. exists "failed". split; [by right|exact H].
    + intros e ls H. exact H.
Qed.
End Upload.

(** The upload handler: its [try] block, then the handler of the block
    when it raised, then the log. *)
Lemma upload_bot_code_eq bot_id file bot s :
  query_bot bot_id (db s) = Some bot →
  ∃ s1,
    add_deployment bot_id s = (Ok (fresh_id (deployments (db s))), s1) ∧
    upload_bot_code bot_id file s =
      let body :=
        upload_steps bot_id bot (fresh_id (deployments (db s))) file ([], s1) in
      (Ok (bot_page bot_id),
       match body.1 with
       | Ok _ =>
           (set_log (fresh_id (deployments (db s))) (join nl body.2.1)
              body.2.2).2
       | Raise e =>
           finalized (fresh_id (deployments (db s))) "failed"
             (body.2.1 ++ ["Error: " +:+ str_exc e]) body.2.2
       end).
Proof.
  intros Hq. destruct (add_deployment_tracks bot_id s) as (s1 & E1 & _).
  exists s1. split; [exact E1|].
  unfold upload_bot_code, bind at 1, gets. rewrite Hq.
  unfold bind at 1. rewrite E1. unfold try_except.
  destruct (upload_steps _ _ _ _ _) as [[[]|e] [logs s2]]; cbn [fst snd].
  - done.
  - done.
Qed.

(** Where the upload handler leaves the registry. *)
Lemma upload_bot_code_tracks bot_id file bot s :
  query_bot bot_id (db s) = Some bot →
  let n := fresh_id (deployments (db s)) in
  let body := upload_steps bot_id bot n file ([], (add_deployment bot_id s).2) in
  ∃ v logs ws,
    tracks (db s) n bot_id v (Some (join nl logs)) ws
      (db (upload_bot_code bot_id file s).2) ∧
    terminal v ∧ Forall legal_write ws ∧
    match body.1 with
    | Ok _ => logs = body.2.1
    | Raise e => v = "failed" ∧ logs = body.2.1 ++ ["Error: " +:+ str_exc e]
    end.
Proof.
  intros Hq n body.
  destruct (upload_bot_code_eq bot_id file bot s Hq) as (s1 & E1 & ->).
  destruct (add_deployment_tracks bot_id s) as (s1' & E1' & _ & Ht).
  rewrite E1 in E1'. injection E1' as <-.
  subst body. rewrite E1. cbn [snd]. fold n in Ht |- *.
  pose proof (upload_steps_phase (db s) bot_id bot file ([], s1)) as H.
  cbn zeta in H. fold n in H. specialize (H (ex_intro _ None Ht)).
  destruct (upload_steps bot_id bot n file ([], s1)) as [[[]|e] [logs s2]];
    cbn [fst snd] in *.
  - destruct H as (v & Hv & lg & Hs2).
    destruct (set_log_tracks _ _ _ _ _ (join nl logs) _ Hs2) as (_ & _ & H).
    exists v, logs, [(n, "pending", v)]. split; [exact H|].
    split; [exact Hv|]. split; [|done].
    constructor; [|constructor]. split; [exact Hv|by left].
  - destruct H as [[lg Hs2]|[lg Hs2]].
    + destruct (finalized_tracks _ _ _ _ _ "failed"
                  (logs ++ ["Error: " +:+ str_exc e]) _ Hs2) as (_ & H).
      eexists _, _, _. split; [exact H|]. split; [by right|].
      split; [|done]. cbn [app].
      constructor; [|constructor]. split; [by right|by left].
    + destruct (finalized_tracks _ _ _ _ _ "failed"
                  (logs ++ ["Error: " +:+ str_exc e]) _ Hs2) as (_ & H).
      eexists _, _, _. split; [exact H|]. split; [by right|].
      split; [|done]. cbn [app].
      constructor; [|constructor; [|constructor]].
      * split; [by right|by left].
      * split; [by right|by right].
Qed.

(** Starting, stopping and restarting a bot leave the registry alone. *)
Lemma lifecycle_handlers_keep_db d0 bot_id :
  inv (λ s, db s = d0) (start_bot bot_id) ∧
  inv (λ s, db s = d0) (stop_bot bot_id) ∧
  inv (λ s, db s = d0) (restart_bot bot_id).
Proof.
  unfold start_bot, stop_bot, restart_bot.
  repeat split; repeat inv_step;
    apply (inv_in_world_db (λ d, d = d0)).
Qed.

Lemma deploy_bot_fetch_failure bot_id bot s :
  query_bot bot_id (db s) = Some bot →
  truthy_opt (b_repo_url bot) = true →
  let fetch :=
    clone_or_pull_repo (default EmptyString (b_repo_url bot)) (b_code_path bot)
      (world s) in
  fetch.1.1 = false →
  (deploy_bot bot_id s).1 = Raise (HTTPException 500 fetch.1.2).
Proof.
  intros Hq Hrepo fetch Hfetch.
  unfold deploy_bot, bind, gets. rewrite Hq, Hrepo. cbn [negb].
  destruct (add_deployment_tracks bot_id s) as (s1 & -> & Hw & _).
  rewrite deploy_steps_eq, Hw. fold fetch.
  destruct fetch as [[ok1 m1] w1]. cbn [fst snd] in *. by subst ok1.
Qed.

Lemma deploy_bot_build_failure bot_id bot s :
  query_bot bot_id (db s) = Some bot →
  truthy_opt (b_repo_url bot) = true →
  let fetch :=
    clone_or_pull_repo (default EmptyString (b_repo_url bot)) (b_code_path bot)
      (world s) in
  let build := build_bot_image (b_id bot) (b_code_path bot) fetch.2 in
  fetch.1.1 = true → build.1.1 = false →
  let after := deploy_bot bot_id s in
  let n := fresh_id (deployments (db s)) in
  after.1 = Raise (HTTPException 500 build.1.2) ∧
  deployments (db after.2) = deployments (db s) ++
    [row n bot_id "failed" (Some (join nl [fetch.1.2; build.1.2]))] ∧
  status_writes (db after.2) = status_writes (db s) ++
    [(n, "pending", "failed")] ∧
  world after.2 = build.2.
Proof.
  intros Hq Hrepo fetch build Hfetch Hbuild after n.
  subst after. unfold deploy_bot, bind, gets. rewrite Hq, Hrepo. cbn [negb].
  destruct (add_deployment_tracks bot_id s) as (s1 & -> & Hw & Ht).
  rewrite deploy_steps_eq, Hw. fold fetch.
  destruct fetch as [[ok1 m1] w1] eqn:Efetch. cbn [fst snd] in *.
  subst ok1. cbn [negb]. fold build.
  destruct build as [[ok2 m2] w2] eqn:Ebuild. cbn [fst snd] in *.
  subst ok2. cbn [negb fst snd].
  destruct (finalized_tracks _ _ _ _ _ "failed" [m1; m2]
              {| db := db s1; world := w2 |} Ht)
    as (Hw2 & _ & _ & Hd & Hsw).
  done.
Qed.

(** ** The claims *)

(** C9.  The container of bot [b] is called ["bot_" + str(b)] and its
    image ["bot_" + str(b) + ":latest"]; both names are functions of the
    identifier alone, and distinct identifiers get distinct container
    names and distinct image names. *)
Theorem naming_scheme_injective (b1 b2 : Z) :
  get_container_name b1 = "bot_" +:+ str b1 ∧
  get_image_name b1 = "bot_" +:+ str b1 +:+ ":latest" ∧
  (b1 ≠ b2 →
     get_container_name b1 ≠ get_container_name b2 ∧
     get_image_name b1 ≠ get_image_name b2).
Proof.
  split; [done|]. split; [done|]. intros Hne.
  unfold get_container_name, get_image_name. split; intros Heq; apply Hne.
  - by apply str_inj, (append_inj_r "bot_").
  - apply str_inj, (append_inj_l _ _ ":latest"), (append_inj_r "bot_").
    exact Heq.
Qed.

Lemma naming_scheme_injective_witness :
  get_container_name 7 = "bot_7" ∧
  get_image_name 7 = "bot_7:latest" ∧
  get_container_name 7 ≠ get_container_name 70 ∧
  get_image_name 7 ≠ get_image_name 70.
Proof.
  destruct (naming_scheme_injective 7 70) as (Hc & Hi & Hne).
  split; [exact Hc|]. split; [exact Hi|]. apply Hne. lia.
Defined.

Lemma get_bot_status_unknown bot_id w :
  (get_bot_status bot_id w).1 = "Unknown" ↔ docker_client w = false.
Proof.
  unfold get_bot_status. destruct (docker_client w); cbn [negb].
  - split; [|done]. unfold_world.
    destruct (faults w) as [|[msg|] fs]; fields;
      try destruct (containers w !! get_container_name bot_id) as [c|];
      try destruct (c_status c =? "running")%string; cbn; done.
  - done.
Qed.

(** C7, as amended.  The status is ["Unknown"] exactly when there is no
    connection to the daemon.  With a connection and the daemon answering,
    a bot whose container was never created is reported as ["Stopped"],
    and a bot whose container exists but is not running as
    ["Stopped (<container status>)"], which is a different value. *)
Theorem status_unknown_iff_no_connection (bot_id : Z) (w : World) :
  ((get_bot_status bot_id w).1 = "Unknown" ↔ docker_client w = false) ∧
  (docker_client w = true → served w = true →
   (containers w !! get_container_name bot_id = None →
      (get_bot_status bot_id w).1 = "Stopped") ∧
   (∀ c, containers w !! get_container_name bot_id = Some c →
         c_status c ≠ "running" →
      (get_bot_status bot_id w).1 = "Stopped (" +:+ c_status c +:+ ")" ∧
      (get_bot_status bot_id w).1 ≠ "Stopped")).
Proof.
  split; [apply get_bot_status_unknown|].
  intros Hdc Hs. unfold get_bot_status. rewrite Hdc. cbn [negb].
  unfold served in Hs. unfold_world.
  destruct (faults w) as [|[msg|] fs]; try done; fields.
  - split.
    + by intros ->.
    + intros c -> Hc. apply String.eqb_neq in Hc. rewrite Hc. cbn. done.
  - split.
    + by intros ->.
    + intros c -> Hc. apply String.eqb_neq in Hc. rewrite Hc. cbn. done.
Qed.

Lemma status_unknown_iff_no_connection_witness :
  (get_bot_status 1 (host_with_container "exited")).1 = "Stopped (exited)" ∧
  (get_bot_status 1 (host_with_container "exited")).1 ≠ "Stopped".
Proof.
  destruct (status_unknown_iff_no_connection 1 (host_with_container "exited"))
    as [_ H].
  destruct H as [_ H]; [reflexivity|reflexivity|].
  apply (H (container_of_bot_1 "exited")); [reflexivity|discriminate].
Defined.

(** C7, as it was stated, fails: with the daemon connected, the status of
    a bot whose container exited is not the status of a bot whose
    container was never created. *)
Lemma status_tells_exited_from_never_created :
  docker_client fresh_host = true ∧
  docker_client (host_with_container "exited") = true ∧
  containers fresh_host !! get_container_name 1 = None ∧
  c_status <$> containers (host_with_container "exited")
                 !! get_container_name 1 = Some "exited" ∧
  (get_bot_status 1 fresh_host).1 = "Stopped" ∧
  (get_bot_status 1 (host_with_container "exited")).1 = "Stopped (exited)" ∧
  (get_bot_status 1 fresh_host).1
    ≠ (get_bot_status 1 (host_with_container "exited")).1.
Proof. vm_compute. repeat split; done. Qed.

(** C6, as it was stated, fails: stopping a running container and stopping
    the same bot again right after both succeed, but the two results are
    not the same.  The message of the first tells that a container was
    stopped, the message of the second that there was none. *)
Lemma second_stop_tells_there_was_nothing_to_stop :
  let w := host_with_container "running" in
  let first := stop_bot_container 1 w in
  let second := stop_bot_container 1 first.2 in
  docker_client w = true ∧ faults w = [] ∧
  c_status <$> containers w !! get_container_name 1 = Some "running" ∧
  first.1 = (true, "Container bot_1 stopped successfully") ∧
  containers first.2 !! get_container_name 1 = None ∧
  second.1 = (true, "Container bot_1 is not running") ∧
  first.1 ≠ second.1.
Proof. vm_compute. repeat split; done. Qed.

(** C6, as amended.  With the daemon connected and answering, stopping a
    bot that has no container succeeds and changes no container; stopping
    any bot twice in a row succeeds both times, and the second call does
    nothing but look the container up.  The success flag is the same
    whether there was a container to stop or not, and so is the answer of
    the stop request of the platform, the redirect to the page of the bot.
    The message is not: it reads ["Container bot_<id> stopped
    successfully"] when a container was stopped and ["Container bot_<id>
    is not running"] when there was none, so that the results of the two
    calls are equal exactly when the bot had no container to begin
    with. *)
Theorem stop_is_idempotent (bot_id : Z) (w : World) :
  docker_client w = true → faults w = [] →
  let name := get_container_name bot_id in
  let stopped := "Container " +:+ name +:+ " stopped successfully" in
  let absent := "Container " +:+ name +:+ " is not running" in
  let first := stop_bot_container bot_id w in
  let second := stop_bot_container bot_id first.2 in
  first.1 = (true, if bool_decide (is_Some (containers w !! name))
                   then stopped else absent) ∧
  second.1 = (true, absent) ∧
  stopped ≠ absent ∧
  (first.1 = second.1 ↔ containers w !! name = None) ∧
  (containers w !! name = None → containers first.2 = containers w) ∧
  containers first.2 !! name = None ∧
  second.2 = set_journal (journal first.2 ++ [ContainersGet name]) first.2 ∧
  (containers second.2 = containers first.2 ∧
   images second.2 = images first.2 ∧
   files second.2 = files first.2 ∧ dirs second.2 = dirs first.2) ∧
  (∀ d bot, query_bot bot_id d = Some bot →
     (stop_bot bot_id {| db := d; world := w |}).1 = Ok (bot_page bot_id) ∧
     (stop_bot bot_id {| db := d; world := first.2 |}).1
       = Ok (bot_page bot_id)).
Proof.
  intros Hdc Hf name stopped absent first second.
  assert (Hdiff : stopped ≠ absent).
  { subst stopped absent. intros E.
    apply append_inj_r, append_inj_r in E. discriminate. }
  destruct (stop_served bot_id w Hdc Hf)
    as (m1 & w1 & E1 & Hdc1 & Hf1 & Hc1 & _).
  assert (Hgone : containers w1 !! name = None).
  { rewrite Hc1. apply lookup_delete_eq. }
  pose proof (stop_absent bot_id w1 Hdc1 Hf1 Hgone) as E2.
  assert (Hm1 : m1 = if bool_decide (is_Some (containers w !! name))
                     then stopped else absent).
  { destruct (containers w !! name) as [c|] eqn:Hc.
    - destruct (stop_present bot_id w c Hdc Hf Hc) as (w' & E & _).
      rewrite bool_decide_eq_true_2 by done.
      rewrite E in E1. injection E1 as Hm _. symmetry. exact Hm.
    - pose proof (stop_absent bot_id w Hdc Hf Hc) as E.
      rewrite bool_decide_eq_false_2 by (by intros [? ?]).
      rewrite E in E1. injection E1 as Hm _. symmetry. exact Hm. }
  assert (Hstay : containers w !! name = None → containers w1 = containers w).
  { intros Hnone. rewrite Hc1. by apply delete_id. }
  subst first second. rewrite E1. cbn [fst snd]. rewrite E2. cbn [fst snd].
  fold name absent. subst m1.
  split; [done|]. split; [done|]. split; [exact Hdiff|].
  split; [|split; [exact Hstay|split; [exact Hgone|split; [done|split]]]].
  - destruct (containers w !! name) as [c|].
    + rewrite bool_decide_eq_true_2 by done. split; [|done].
      intros E. apply (f_equal snd) in E. destruct (Hdiff E).
    + by rewrite bool_decide_eq_false_2 by (by intros [? ?]).
  - done.
  - intros d bot Hq. split; by eapply stop_bot_served.
Qed.

Lemma stop_is_idempotent_witness :
  let first := stop_bot_container 1 (host_with_container "running") in
  let second := stop_bot_container 1 first.2 in
  first.1.1 = true ∧ second.1.1 = true ∧ first.1 ≠ second.1 ∧
  containers second.2 = containers first.2.
Proof.
  intros first second.
  destruct (stop_is_idempotent 1 (host_with_container "running"))
    as (H1 & H2 & _ & H4 & _ & _ & _ & (H8 & _) & _);
    [reflexivity|reflexivity|].
  fold first in H1, H2, H4, H8. fold second in H2, H4, H8.
  split; [by rewrite H1|]. split; [by rewrite H2|]. split; [|exact H8].
  intros E. apply H4 in E. discriminate E.
Defined.

(** C8.  With the daemon connected and answering and the image of the
    bot built, [run_bot_container] looks the container up, stops it with
    a grace period of 10 seconds and removes it when it exists, and then
    starts a container from the image of the bot with the given
    environment, the start command split into words (or
    [python bot.py] when the command is empty) and restart policy
    [always].  It succeeds whether or not a container existed, and a
    second call with the same arguments succeeds again and leaves the
    container in the same running state; other containers are kept. *)
Theorem run_replaces_and_is_idempotent (bot_id : Z)
    (env_vars : gmap string string) (start_command : string) (w : World) :
  docker_client w = true → faults w = [] →
  is_Some (images w !! get_image_name bot_id) →
  let first := run_bot_container bot_id env_vars start_command w in
  let second := run_bot_container bot_id env_vars start_command first.2 in
  first.1.1 = true ∧
  journal first.2 = journal w ++
    replacement_calls bot_id env_vars start_command
      (bool_decide (is_Some (containers w !! get_container_name bot_id))) ∧
  running_state <$> containers first.2 !! get_container_name bot_id
    = Some (wanted_state bot_id env_vars start_command) ∧
  second.1.1 = true ∧
  journal second.2 = journal first.2 ++
    replacement_calls bot_id env_vars start_command true ∧
  running_state <$> containers second.2 !! get_container_name bot_id
    = running_state <$> containers first.2 !! get_container_name bot_id ∧
  (∀ name, name ≠ get_container_name bot_id →
     containers first.2 !! name = containers w !! name ∧
     containers second.2 !! name = containers w !! name).
Proof.
  intros Hdc Hf Hi first second.
  destruct (run_served bot_id env_vars start_command w Hdc Hf Hi)
    as (m1 & c1 & w1 & E1 & Hdc1 & Hf1 & Hi1 & _ & _ & Hc1 & Hs1 & Hj1).
  rewrite <- Hi1 in Hi.
  destruct (run_served bot_id env_vars start_command w1 Hdc1 Hf1 Hi)
    as (m2 & c2 & w2 & E2 & _ & _ & _ & _ & _ & Hc2 & Hs2 & Hj2).
  subst first second. rewrite E1. cbn [fst snd]. rewrite E2. cbn [fst snd].
  split; [done|]. split; [exact Hj1|].
  split. { rewrite Hc1, lookup_insert_eq. cbn. by rewrite Hs1. }
  split; [done|].
  split.
  { rewrite Hj2, bool_decide_eq_true_2; [done|].
    rewrite Hc1, lookup_insert_eq. by eexists. }
  split. { rewrite Hc2, Hc1, !lookup_insert_eq. cbn. by rewrite Hs1, Hs2. }
  intros name Hne. rewrite Hc2, Hc1, !lookup_insert_ne by done. done.
Qed.

Lemma run_replaces_and_is_idempotent_witness :
  let first := run_bot_container 1 ∅ EmptyString (host_with_container "running") in
  let second := run_bot_container 1 ∅ EmptyString first.2 in
  first.1.1 = true ∧ second.1.1 = true ∧
  running_state <$> containers second.2 !! get_container_name 1
    = running_state <$> containers first.2 !! get_container_name 1.
Proof.
  destruct (run_replaces_and_is_idempotent 1 ∅ EmptyString (host_with_container "running"))
    as (H1 & _ & _ & H2 & _ & H3 & _);
    [reflexivity|reflexivity|by eexists|].
  exact (conj H1 (conj H2 H3)).
Defined.

(** C3, as amended.  With the daemon connected and the file system
    serving the write, [build_bot_image] always installs a Dockerfile in
    the code directory before it builds: a copy of the platform's template
    when one is installed, the basic Dockerfile otherwise.  What was at
    that path before plays no part, and the build reads the installed
    file. *)
Theorem build_installs_platform_dockerfile (bot_id : Z) (code_path : string)
    (w : World) :
  docker_client w = true → served w = true →
  "/app/BotDockerfile.template" ∉ dirs w →
  "BotDockerfile.template" ∉ dirs w →
  let after := build_bot_image bot_id code_path w in
  files after.2 !! os_path_join code_path "Dockerfile"
    = Some (installed_dockerfile w) ∧
  journal after.2 = journal w ++
    [ImagesBuild code_path (get_image_name bot_id)
       (Some (installed_dockerfile w))].
Proof.
  intros Hdc Hs Hd1 Hd2 after. subst after.
  unfold build_bot_image, installed_dockerfile. rewrite Hdc. cbn [negb].
  unfold served in Hs.
  destruct (files w !! "/app/BotDockerfile.template") as [t1|] eqn:Ht1.
  - pose proof (os_path_exists_file _ _ _ Ht1) as Hex.
    destruct (faults w) as [|[msg|] fs] eqn:Hf; try done;
      [|destruct fs as [|[msg|] fs']];
      crunch with (rewrite ?Hex, ?Hf, ?Ht1, ?lookup_insert_eq); done.
  - pose proof (os_path_exists_neither _ _ Ht1 Hd1) as Hex.
    destruct (files w !! "BotDockerfile.template") as [t2|] eqn:Ht2.
    + pose proof (os_path_exists_file _ _ _ Ht2) as Hex2.
      destruct (faults w) as [|[msg|] fs] eqn:Hf; try done;
        [|destruct fs as [|[msg|] fs']];
        crunch with (rewrite ?Hex, ?Hex2, ?Hf, ?Ht2, ?lookup_insert_eq); done.
    + pose proof (os_path_exists_neither _ _ Ht2 Hd2) as Hex2.
      destruct (faults w) as [|[msg|] fs] eqn:Hf; try done;
        [|destruct fs as [|[msg|] fs']];
        crunch with (rewrite ?Hex, ?Hex2, ?Hf, ?lookup_insert_eq); done.
Qed.

Lemma build_installs_platform_dockerfile_witness :
  files (build_bot_image 1 "/srv/bots/alpha" host_with_custom_dockerfile).2
    !! "/srv/bots/alpha/Dockerfile" = Some basic_dockerfile.
Proof.
  apply (build_installs_platform_dockerfile 1 "/srv/bots/alpha"
           host_with_custom_dockerfile);
    [reflexivity|reflexivity|by vm_compute|by vm_compute].
Defined.

(** C3, as it was stated, fails: a Dockerfile brought by the sources of
    the bot is replaced by the basic one, and the image is built from the
    replacement. *)
Lemma custom_dockerfile_is_overwritten :
  let w := host_with_custom_dockerfile in
  let after := build_bot_image 1 "/srv/bots/alpha" w in
  files w !! "/srv/bots/alpha/Dockerfile" = Some "FROM node:20" ∧
  after.1.1 = true ∧
  files after.2 !! "/srv/bots/alpha/Dockerfile" = Some basic_dockerfile ∧
  files after.2 !! "/srv/bots/alpha/Dockerfile"
    ≠ files w !! "/srv/bots/alpha/Dockerfile" ∧
  images after.2 !! get_image_name 1 = Some basic_dockerfile ∧
  journal after.2 =
    [ImagesBuild "/srv/bots/alpha" (get_image_name 1) (Some basic_dockerfile)].
Proof. vm_compute. repeat split; done. Qed.

(** C1.  In a deploy from the repository, when the fetch went through and
    the build fails: the request ends with the build error, the
    deployment goes from pending straight to failed, its log is the fetch
    message followed by the build error, no call on any container is made
    (the relaunch is not attempted), the containers are what they were,
    and the status of the bot is what it was: still [Running] if it was
    running. *)
Theorem failed_build_leaves_container (bot_id : Z) (bot : BotApp) (s : Sys) :
  query_bot bot_id (db s) = Some bot →
  truthy_opt (b_repo_url bot) = true →
  let fetch :=
    clone_or_pull_repo (default EmptyString (b_repo_url bot)) (b_code_path bot)
      (world s) in
  let build := build_bot_image (b_id bot) (b_code_path bot) fetch.2 in
  fetch.1.1 = true → build.1.1 = false →
  let after := deploy_bot bot_id s in
  let n := fresh_id (deployments (db s)) in
  after.1 = Raise (HTTPException 500 build.1.2) ∧
  deployments (db after.2) = deployments (db s) ++
    [row n bot_id "failed" (Some (join nl [fetch.1.2; build.1.2]))] ∧
  status_writes (db after.2) = status_writes (db s) ++
    [(n, "pending", "failed")] ∧
  world after.2 = build.2 ∧
  quiet (world s) (world after.2) ∧
  (∀ fs, (get_bot_status bot_id (set_faults fs (world after.2))).1
         = (get_bot_status bot_id (set_faults fs (world s))).1).
Proof.
  intros Hq Hrepo fetch build Hfetch Hbuild after n.
  assert (Hquiet : quiet (world s) build.2).
  { apply build_bot_image_quiet, clone_or_pull_repo_quiet, quiet_refl. }
  destruct (deploy_bot_build_failure bot_id bot s Hq Hrepo Hfetch Hbuild)
    as (Hr & Hd & Hsw & Hw).
  fold fetch build after n in Hr, Hd, Hsw, Hw.
  split; [exact Hr|]. split; [exact Hd|]. split; [exact Hsw|].
  split; [exact Hw|]. rewrite Hw. split; [exact Hquiet|].
  intros fs. apply get_bot_status_untouched; [|done].
  destruct Hquiet as [[Hdc Hc] _]. by split.
Qed.

Lemma failed_build_leaves_container_witness :
  let s := platform_on host_where_build_breaks in
  (get_bot_status 1 (set_faults [] (world (deploy_bot 1 s).2))).1
    = (get_bot_status 1 (set_faults [] (world s))).1.
Proof.
  intros s.
  destruct (failed_build_leaves_container 1 alpha s) as (_ & _ & _ & _ & _ & H);
    [reflexivity|reflexivity|by vm_compute|by vm_compute|].
  exact (H []).
Defined.

(** C4, as amended.  For a bot without a repository URL the deploy
    request does not go on to the build: it is refused with status 400
    before a deployment is recorded and before anything is fetched, built
    or relaunched.  The fetch is absent on the upload path only, which
    never starts a git process. *)
Theorem deploy_without_remote_is_refused (bot_id : Z) (bot : BotApp) (s : Sys) :
  query_bot bot_id (db s) = Some bot →
  truthy_opt (b_repo_url bot) = false →
  deploy_bot bot_id s
    = (Raise (HTTPException 400 "No repository URL configured"), s) ∧
  (∀ file,
     calls_since (λ c, negb (is_subprocess c)) (world s)
       (world (upload_bot_code bot_id file s).2)).
Proof.
  intros Hq Hrepo. split.
  - unfold deploy_bot, bind, gets. by rewrite Hq, Hrepo.
  - intros file.
    apply (inv_snd _ _ s (upload_bot_code_no_subprocess (world s) bot_id file)).
    apply calls_since_refl.
Qed.

Lemma deploy_without_remote_is_refused_witness :
  deploy_bot 2 (platform_on fresh_host)
    = (Raise (HTTPException 400 "No repository URL configured"),
       platform_on fresh_host).
Proof.
  apply (deploy_without_remote_is_refused 2 beta (platform_on fresh_host));
    reflexivity.
Defined.

(** C4, as it was stated, fails: the deploy request for a bot that has no
    repository URL is turned down, and nothing is built. *)
Lemma deploy_of_upload_bot_builds_nothing :
  let s := platform_on fresh_host in
  let after := deploy_bot 2 s in
  query_bot 2 (db s) = Some beta ∧ b_repo_url beta = None ∧
  after.1 = Raise (HTTPException 400 "No repository URL configured") ∧
  deployments (db after.2) = [] ∧
  journal (world after.2) = [].
Proof. vm_compute. repeat split; done. Qed.

(** C2, as amended.  The deploy handler holds no lock and does not look
    at the deployments on record: what it answers and what it does to the
    world are the same whatever deployments exist, pending ones included.
    It never answers with a conflict: its answer is the redirect or one of
    the errors 404, 400 and 500; and for a bot with a repository URL it
    always records a deployment of its own and finalizes it. *)
Theorem deploy_ignores_pending_deployments (bot_id : Z) (s s' : Sys) :
  bots (db s') = bots (db s) → env_vars (db s') = env_vars (db s) →
  world s' = world s →
  (deploy_bot bot_id s').1 = (deploy_bot bot_id s).1 ∧
  world (deploy_bot bot_id s').2 = world (deploy_bot bot_id s).2 ∧
  ((deploy_bot bot_id s').1 = Ok (bot_page bot_id) ∨
   ∃ code detail,
     (deploy_bot bot_id s').1 = Raise (HTTPException code detail) ∧
     (code = 404 ∨ code = 400 ∨ code = 500)) ∧
  (∀ bot, query_bot bot_id (db s') = Some bot →
          truthy_opt (b_repo_url bot) = true →
     ∃ v lg,
       deployments (db (deploy_bot bot_id s').2) = deployments (db s') ++
         [row (fresh_id (deployments (db s'))) bot_id v lg] ∧
       terminal v).
Proof.
  intros Hb He Hw.
  assert (Hsame :
    (deploy_bot bot_id s').1 = (deploy_bot bot_id s).1 ∧
    world (deploy_bot bot_id s').2 = world (deploy_bot bot_id s).2).
  { unfold deploy_bot, bind, gets, query_bot. rewrite Hb.
    destruct (List.find _ _) as [bot|]; [|done].
    destruct (truthy_opt (b_repo_url bot)); cbn [negb]; [|done].
    destruct (add_deployment_tracks bot_id s)
      as (s1 & -> & Hw1 & _ & He1 & _).
    destruct (add_deployment_tracks bot_id s')
      as (s1' & -> & Hw1' & _ & He1' & _).
    apply deploy_steps_independent; congruence. }
  destruct Hsame as [Hanswer Hworld].
  split; [exact Hanswer|]. split; [exact Hworld|]. split.
  - apply deploy_bot_answers.
  - intros bot Hq Hrepo.
    destruct (deploy_bot_creates_record bot_id bot s' Hq Hrepo)
      as (v & lg & ws & (_ & _ & Hd & _) & Hv & _).
    by exists v, lg.
Qed.

Lemma deploy_ignores_pending_deployments_witness :
  let idle := platform_on fresh_host in
  let busy := (add_deployment 1 idle).2 in
  d_status <$> deployments (db busy) = ["pending"] ∧
  (deploy_bot 1 busy).1 = (deploy_bot 1 idle).1 ∧
  world (deploy_bot 1 busy).2 = world (deploy_bot 1 idle).2.
Proof.
  intros idle busy.
  destruct (deploy_ignores_pending_deployments 1 idle busy)
    as (H1 & H2 & _); [reflexivity|reflexivity|reflexivity|].
  split; [reflexivity|]. exact (conj H1 H2).
Defined.

(** C2, as it was stated, fails.  While the first deploy of bot 1 has
    recorded its pending deployment and not yet gone on, a second deploy
    request for the same bot is served in full; then the first one goes
    on and is served too.  Neither is refused, both fetch, build and
    start a container.  Two requests served one after the other fare the
    same. *)
Lemma concurrent_deploys_both_proceed :
  let idle := platform_on fresh_host in
  let busy := (add_deployment 1 idle).2 in
  let second := deploy_bot 1 busy in
  let first := deploy_steps 1 alpha 1 second.2 in
  deploy_bot 1 idle = deploy_steps 1 alpha 1 busy ∧
  d_status <$> deployments (db busy) = ["pending"] ∧
  second.1 = Ok (bot_page 1) ∧
  first.1 = Ok (bot_page 1) ∧
  d_status <$> deployments (db first.2) = ["success"; "success"] ∧
  List.filter is_subprocess (journal (world first.2)) =
    [SubprocessRun ["git"; "clone"; "https://example/alpha.git";
                    "/srv/bots/alpha"] None 120;
     SubprocessRun ["git"; "pull"] (Some "/srv/bots/alpha") 60] ∧
  length (List.filter is_build (journal (world first.2))) = 2%nat ∧
  length (List.filter is_run (journal (world first.2))) = 2%nat ∧
  (deploy_bot 1 idle).1 = Ok (bot_page 1) ∧
  (deploy_bot 1 (deploy_bot 1 idle).2).1 = Ok (bot_page 1).
Proof. vm_compute. repeat split; done. Qed.

(** C10.  The upload handler, for a bot on record, always answers with
    the redirect to the page of the bot, and always leaves its deployment
    finalized with the log written: when the [try] block raises,
    whichever step raised, the deployment is failed and the log is what
    was gathered so far followed by the line ["Error: " + str(e)].  The
    deploy handler, unlike it, answers a failed fetch and a failed build
    with status 500. *)
Theorem upload_always_finalizes (bot_id : Z) (file : UploadFile)
    (bot : BotApp) (s : Sys) :
  query_bot bot_id (db s) = Some bot →
  let n := fresh_id (deployments (db s)) in
  let body := upload_steps bot_id bot n file ([], (add_deployment bot_id s).2) in
  let after := upload_bot_code bot_id file s in
  after.1 = Ok (bot_page bot_id) ∧
  (∃ v logs,
     deployments (db after.2) = deployments (db s) ++
       [row n bot_id v (Some (join nl logs))] ∧
     terminal v ∧
     match body.1 with
     | Ok _ => logs = body.2.1
     | Raise e => v = "failed" ∧ logs = body.2.1 ++ ["Error: " +:+ str_exc e]
     end) ∧
  (truthy_opt (b_repo_url bot) = true →
   let fetch :=
     clone_or_pull_repo (default EmptyString (b_repo_url bot)) (b_code_path bot)
       (world s) in
   let build := build_bot_image (b_id bot) (b_code_path bot) fetch.2 in
   (fetch.1.1 = false →
      (deploy_bot bot_id s).1 = Raise (HTTPException 500 fetch.1.2)) ∧
   (fetch.1.1 = true → build.1.1 = false →
      (deploy_bot bot_id s).1 = Raise (HTTPException 500 build.1.2))).
Proof.
  intros Hq n body after. split; [|split].
  - subst after.
    by destruct (upload_bot_code_eq bot_id file bot s Hq) as (s1 & _ & ->).
  - destruct (upload_bot_code_tracks bot_id file bot s Hq)
      as (v & logs & ws & (_ & _ & Hd & _) & Hv & _ & Hlogs).
    by exists v, logs.
  - intros Hrepo fetch build. split.
    + by apply deploy_bot_fetch_failure.
    + intros Hfetch Hbuild.
      by destruct (deploy_bot_build_failure bot_id bot s Hq Hrepo Hfetch Hbuild)
        as (H & _).
Qed.

Lemma upload_always_finalizes_witness :
  let s := platform_on host_where_fetch_fails in
  (upload_bot_code 1 not_a_zip s).1 = Ok (bot_page 1) ∧
  (deploy_bot 1 s).1 =
    Raise (HTTPException 500
             ("Git clone failed:" +:+ nl +:+ "fatal: Authentication failed")).
Proof.
  intros s.
  destruct (upload_always_finalizes 1 not_a_zip alpha s) as (H1 & _ & H2);
    [reflexivity|].
  split; [exact H1|].
  destruct H2 as [H2 _]; [reflexivity|]. apply H2. reflexivity.
Defined.

(** The upload handler at work: a full disk when the archive is saved,
    bytes that are no archive, and a build that breaks all end in a failed
    deployment with the error in its log, and in the usual redirect. *)
Example upload_failures_are_recorded :
  let full := upload_bot_code 2 beta_zip (platform_on host_with_full_disk) in
  let bad := upload_bot_code 2 not_a_zip (platform_on fresh_host) in
  let broken :=
    upload_bot_code 2 beta_zip
      (platform_on (set_faults [None; None; None; None; None; None;
                                Some "pip install failed"] fresh_host)) in
  full.1 = Ok (bot_page 2) ∧
  deployments (db full.2) =
    [row 1 2 "failed" (Some "Error: [Errno 28] No space left on device")] ∧
  bad.1 = Ok (bot_page 2) ∧
  deployments (db bad.2) =
    [row 1 2 "failed"
       (Some (join nl ["Uploaded file: notes.txt (5 bytes)";
                       "Error: File is not a zip file"]))] ∧
  broken.1 = Ok (bot_page 2) ∧
  deployments (db broken.2) =
    [row 1 2 "failed"
       (Some (join nl ["Uploaded file: beta.zip (2 bytes)";
                       "Extracted to: /srv/bots/beta";
                       "Failed to build image: pip install failed";
                       "Error: 500: Failed to build image: pip install failed"]))] ∧
  status_writes (db broken.2) =
    [(1, "pending", "failed"); (1, "failed", "failed")].
Proof. vm_compute. repeat split; done. Qed.

(** C5.  Whatever request the orchestrator serves, the deployments that
    were on record stay as they were, finalized ones included; every
    deployment the request records is in a terminal status when the
    request ends; and every assignment made to a status either takes it
    from pending to success or failed, or assigns a terminal status again
    to a deployment that already has it. *)
Theorem deployment_status_is_write_once (r : Request) (s : Sys) :
  let after := (handle r s).2 in
  ∃ new ws,
    deployments (db after) = deployments (db s) ++ new ∧
    Forall (λ d, terminal (d_status d)) new ∧
    status_writes (db after) = status_writes (db s) ++ ws ∧
    Forall legal_write ws.
Proof.
  assert (Hsame : ∀ s', db s' = db s →
    ∃ new ws,
      deployments (db s') = deployments (db s) ++ new ∧
      Forall (λ d, terminal (d_status d)) new ∧
      status_writes (db s') = status_writes (db s) ++ ws ∧
      Forall legal_write ws).
  { intros s' ->. exists [], []. by rewrite !app_nil_r. }
  assert (Htracks : ∀ s' n bot_id v lg ws,
    tracks (db s) n bot_id v lg ws (db s') → terminal v →
    Forall legal_write ws →
    ∃ new ws,
      deployments (db s') = deployments (db s) ++ new ∧
      Forall (λ d, terminal (d_status d)) new ∧
      status_writes (db s') = status_writes (db s) ++ ws ∧
      Forall legal_write ws).
  { intros s' n bot_id v lg ws (_ & _ & Hd & Hw) Hv Hws.
    exists [row n bot_id v lg], ws. repeat split; try done.
    by constructor. }
  destruct r as [b|b|b|b|b file]; cbn [handle].
  - apply Hsame.
    by apply (inv_snd _ _ s (proj1 (lifecycle_handlers_keep_db (db s) b))).
  - apply Hsame.
    by apply (inv_snd _ _ s
                (proj1 (proj2 (lifecycle_handlers_keep_db (db s) b)))).
  - apply Hsame.
    by apply (inv_snd _ _ s
                (proj2 (proj2 (lifecycle_handlers_keep_db (db s) b)))).
  - destruct (query_bot b (db s)) as [bot|] eqn:Hq.
    + destruct (truthy_opt (b_repo_url bot)) eqn:Hrepo.
      * destruct (deploy_bot_creates_record b bot s Hq Hrepo)
          as (v & lg & ws & Ht & Hv & ->).
        eapply Htracks; [exact Ht|exact Hv|].
        constructor; [|constructor]. split; [exact Hv|by left].
      * apply Hsame. unfold deploy_bot, bind, gets. by rewrite Hq, Hrepo.
    + apply Hsame. unfold deploy_bot, bind, gets. by rewrite Hq.
  - destruct (query_bot b (db s)) as [bot|] eqn:Hq.
    + destruct (upload_bot_code_tracks b file bot s Hq)
        as (v & logs & ws & Ht & Hv & Hws & _).
      eapply Htracks; [exact Ht|exact Hv|exact Hws].
    + apply Hsame. unfold upload_bot_code, bind, gets. by rewrite Hq.
Qed.

(** * Further properties *)

(** ** More rules: invariants that do not read the faults or the journal *)

Lemma may_fail_inv (I : World → Prop) :
  (∀ w fs, I w → I (set_faults fs w)) → inv I may_fail.
Proof.
  intros H w Hw. unfold may_fail.
  destruct (faults w) as [|[msg|] fs]; [done|by apply H|by apply H].
Qed.

Lemma record_call_inv (I : World → Prop) c :
  (∀ w j, I w → I (set_journal j w)) → inv I (record_call c).
Proof. intros H. apply inv_modify. intros w Hw. by apply H. Qed.

Ltac field_inv :=
  repeat first
    [ inv_step
    | apply may_fail_inv; (let H := fresh in intros ? ? H; exact H)
    | apply record_call_inv; (let H := fresh in intros ? ? H; exact H) ].

Lemma clone_or_pull_repo_same_runtime w0 repo_url code_path :
  tinv (same_runtime w0) (clone_or_pull_repo repo_url code_path).
Proof.
  unfold clone_or_pull_repo, subprocess_run, os_makedirs. field_inv.
Qed.

Lemma clone_or_pull_repo_only_git w0 repo_url code_path :
  tinv (calls_since is_subprocess w0) (clone_or_pull_repo repo_url code_path).
Proof. unfold clone_or_pull_repo. inv_auto. Qed.

(** X1.  Without a connection to the daemon, the requests to start, to
    stop and to restart a bot on record are answered with status 500
    and the adapter's message, and nothing changes: not the registry, not
    the host, not even the journal of calls. *)
Theorem lifecycle_requests_need_connection (bot_id : Z) (bot : BotApp) (s : Sys) :
  query_bot bot_id (db s) = Some bot →
  docker_client (world s) = false →
  start_bot bot_id s
    = (Raise (HTTPException 500 "Docker client not available"), s) ∧
  stop_bot bot_id s
    = (Raise (HTTPException 500 "Docker client not available"), s) ∧
  restart_bot bot_id s
    = (Raise (HTTPException 500
                "Failed to stop container: Docker client not available"), s).
Proof.
  intros Hq Hdc. destruct s as [d w]. cbn [db world] in *.
  unfold start_bot, stop_bot, restart_bot, bind, gets, in_world, call,
    restart_bot_container, run_bot_container, stop_bot_container.
  cbn [db world]. rewrite Hq. cbn [db world]. rewrite !Hdc. done.
Qed.

Lemma lifecycle_requests_need_connection_witness :
  let s := platform_on host_without_daemon in
  stop_bot 1 s = (Raise (HTTPException 500 "Docker client not available"), s).
Proof.
  intros s.
  destruct (lifecycle_requests_need_connection 1 alpha s) as (_ & H & _);
    [reflexivity|reflexivity|exact H].
Defined.

(** X2.  Without a connection to the daemon a deploy is not turned down
    at the door: the sources are fetched, a deployment is recorded, and
    when the fetch went through the build fails with the adapter's
    message; the request ends with status 500 and the deployment is
    failed, its log being the fetch message and that message. *)
Theorem deploy_without_connection_fetches_then_fails (bot_id : Z)
    (bot : BotApp) (s : Sys) :
  query_bot bot_id (db s) = Some bot →
  truthy_opt (b_repo_url bot) = true →
  docker_client (world s) = false →
  let fetch :=
    clone_or_pull_repo (default EmptyString (b_repo_url bot)) (b_code_path bot)
      (world s) in
  fetch.1.1 = true →
  let after := deploy_bot bot_id s in
  after.1 = Raise (HTTPException 500 "Docker client not available") ∧
  deployments (db after.2) = deployments (db s) ++
    [row (fresh_id (deployments (db s))) bot_id "failed"
       (Some (join nl [fetch.1.2; "Docker client not available"]))] ∧
  world after.2 = fetch.2.
Proof.
  intros Hq Hrepo Hdc fetch Hfetch after.
  assert (Hdc' : docker_client fetch.2 = false).
  { destruct (clone_or_pull_repo_same_runtime (world s)
                (default EmptyString (b_repo_url bot)) (b_code_path bot)
                (world s)) as (H & _); [done|].
    fold fetch in H. congruence. }
  assert (Hbuild : build_bot_image (b_id bot) (b_code_path bot) fetch.2
                   = ((false, "Docker client not available"), fetch.2)).
  { unfold build_bot_image. by rewrite Hdc'. }
  pose proof (deploy_bot_build_failure bot_id bot s Hq Hrepo Hfetch) as H.
  cbv zeta in H. fold fetch in H. rewrite Hbuild in H.
  destruct (H eq_refl) as (Hr & Hd & _ & Hw). done.
Qed.

Lemma deploy_without_connection_fetches_then_fails_witness :
  let s := platform_on host_without_daemon in
  (deploy_bot 1 s).1 = Raise (HTTPException 500 "Docker client not available") ∧
  d_status <$> deployments (db (deploy_bot 1 s).2) = ["failed"].
Proof.
  intros s.
  destruct (deploy_without_connection_fetches_then_fails 1 alpha s)
    as (H1 & H2 & _); [reflexivity|reflexivity|reflexivity|reflexivity|].
  split; [exact H1|]. rewrite H2. reflexivity.
Defined.

Lemma deploy_bot_fetch_failure_state bot_id bot s :
  query_bot bot_id (db s) = Some bot →
  truthy_opt (b_repo_url bot) = true →
  let fetch :=
    clone_or_pull_repo (default EmptyString (b_repo_url bot)) (b_code_path bot)
      (world s) in
  fetch.1.1 = false →
  let after := deploy_bot bot_id s in
  let n := fresh_id (deployments (db s)) in
  after.1 = Raise (HTTPException 500 fetch.1.2) ∧
  deployments (db after.2) = deployments (db s) ++
    [row n bot_id "failed" (Some fetch.1.2)] ∧
  status_writes (db after.2) = status_writes (db s) ++
    [(n, "pending", "failed")] ∧
  world after.2 = fetch.2.
Proof.
  intros Hq Hrepo fetch Hfetch after n.
  subst after. unfold deploy_bot, bind, gets. rewrite Hq, Hrepo. cbn [negb].
  destruct (add_deployment_tracks bot_id s) as (s1 & -> & Hw & Ht).
  rewrite deploy_steps_eq, Hw. fold fetch.
  destruct fetch as [[ok1 m1] w1] eqn:Efetch. cbn [fst snd] in *.
  subst ok1. cbn [negb fst snd].
  destruct (finalized_tracks _ _ _ _ _ "failed" [m1]
              {| db := db s1; world := w1 |} Ht)
    as (Hw2 & _ & _ & Hd & Hsw).
  done.
Qed.

(** X3.  When the fetch fails, the deploy stops there: the request ends
    with status 500 and the fetch message, the deployment goes from
    pending to failed with that message alone as its log, and nothing is
    built or relaunched: the only calls made are git processes, and the
    containers and images are what they were. *)
Theorem failed_fetch_stops_the_deploy (bot_id : Z) (bot : BotApp) (s : Sys) :
  query_bot bot_id (db s) = Some bot →
  truthy_opt (b_repo_url bot) = true →
  let fetch :=
    clone_or_pull_repo (default EmptyString (b_repo_url bot)) (b_code_path bot)
      (world s) in
  fetch.1.1 = false →
  let after := deploy_bot bot_id s in
  let n := fresh_id (deployments (db s)) in
  after.1 = Raise (HTTPException 500 fetch.1.2) ∧
  deployments (db after.2) = deployments (db s) ++
    [row n bot_id "failed" (Some fetch.1.2)] ∧
  status_writes (db after.2) = status_writes (db s) ++
    [(n, "pending", "failed")] ∧
  calls_since is_subprocess (world s) (world after.2) ∧
  same_runtime (world s) (world after.2).
Proof.
  intros Hq Hrepo fetch Hfetch after n.
  destruct (deploy_bot_fetch_failure_state bot_id bot s Hq Hrepo Hfetch)
    as (Hr & Hd & Hsw & Hw).
  fold fetch after n in Hr, Hd, Hsw, Hw.
  split; [exact Hr|]. split; [exact Hd|]. split; [exact Hsw|]. rewrite Hw.
  split.
  - apply clone_or_pull_repo_only_git, calls_since_refl.
  - by apply clone_or_pull_repo_same_runtime.
Qed.

Lemma failed_fetch_stops_the_deploy_witness :
  let s := platform_on host_where_fetch_fails in
  d_log <$> deployments (db (deploy_bot 1 s).2) =
    [Some ("Git clone failed:" +:+ nl +:+ "fatal: Authentication failed")] ∧
  images (world (deploy_bot 1 s).2) = images (world s).
Proof.
  intros s.
  destruct (failed_fetch_stops_the_deploy 1 alpha s)
    as (_ & H1 & _ & _ & (_ & _ & H2)); [reflexivity|reflexivity|reflexivity|].
  split; [rewrite H1; reflexivity|exact H2].
Defined.

(** X4.  When fetch and build went through, the deploy always ends with
    the redirect to the page of the bot, whether the relaunch worked or
    not: a failed relaunch is not answered with an error.  The deployment
    is success exactly when the relaunch succeeded, failed otherwise, and
    its log is the fetch, build and relaunch messages in this order. *)
Theorem relaunch_outcome_is_only_recorded (bot_id : Z) (bot : BotApp) (s : Sys) :
  query_bot bot_id (db s) = Some bot →
  truthy_opt (b_repo_url bot) = true →
  let fetch :=
    clone_or_pull_repo (default EmptyString (b_repo_url bot)) (b_code_path bot)
      (world s) in
  let build := build_bot_image (b_id bot) (b_code_path bot) fetch.2 in
  let relaunch :=
    restart_bot_container (b_id bot) (env_dict bot (db s))
      (b_start_command bot) build.2 in
  fetch.1.1 = true → build.1.1 = true →
  let after := deploy_bot bot_id s in
  after.1 = Ok (bot_page bot_id) ∧
  deployments (db after.2) = deployments (db s) ++
    [row (fresh_id (deployments (db s))) bot_id
       (if relaunch.1.1 then "success" else "failed")
       (Some (join nl [fetch.1.2; build.1.2; relaunch.1.2]))] ∧
  world after.2 = relaunch.2.
Proof.
  intros Hq Hrepo fetch build relaunch Hfetch Hbuild after.
  subst after. unfold deploy_bot, bind, gets. rewrite Hq, Hrepo. cbn [negb].
  destruct (add_deployment_tracks bot_id s) as (s1 & -> & Hw & Ht).
  assert (He : env_dict bot (db s1) = env_dict bot (db s)).
  { unfold env_dict. destruct Ht as (_ & -> & _). done. }
  rewrite deploy_steps_eq, Hw, He. fold fetch.
  destruct fetch as [[ok1 m1] w1] eqn:Efetch. cbn [fst snd] in *.
  subst ok1. cbn [negb]. fold build.
  destruct build as [[ok2 m2] w2] eqn:Ebuild. cbn [fst snd] in *.
  subst ok2. cbn [negb]. fold relaunch.
  destruct relaunch as [[ok3 m3] w3] eqn:Erelaunch. cbn [fst snd].
  destruct (finalized_tracks _ _ _ _ _ (if ok3 then "success" else "failed")
              [m1; m2; m3] {| db := db s1; world := w3 |} Ht)
    as (Hw3 & _ & _ & Hd & _).
  done.
Qed.

Lemma relaunch_outcome_is_only_recorded_witness :
  let s := platform_on host_where_run_is_refused in
  (deploy_bot 1 s).1 = Ok (bot_page 1) ∧
  d_status <$> deployments (db (deploy_bot 1 s).2) = ["failed"].
Proof.
  intros s.
  destruct (relaunch_outcome_is_only_recorded 1 alpha s) as (H1 & H2 & _);
    [reflexivity|reflexivity|by vm_compute|by vm_compute|].
  split; [exact H1|]. rewrite H2. by vm_compute.
Defined.

(** X5.  A request for a bot that is not on record is answered with
    status 404 before anything else happens, whichever handler it reaches:
    registry and host stay exactly as they were. *)
Theorem unknown_bot_is_not_found (bot_id : Z) (s : Sys) :
  query_bot bot_id (db s) = None →
  (∀ r, match r with
        | Start b | Stop b | Restart b | Deploy b | Upload b _ => b = bot_id
        end →
        handle r s = (Raise (HTTPException 404 "Bot not found"), s)) ∧
  (∀ output,
     view_logs output bot_id s
       = (Raise (HTTPException 404 "Bot not found"), s)) ∧
  (∀ form_data,
     update_env_vars bot_id form_data s
       = (Raise (HTTPException 404 "Bot not found"), s)).
Proof.
  intros Hq. split; [|split].
  - intros [b|b|b|b|b file] ->; cbn [handle];
      unfold start_bot, stop_bot, restart_bot, deploy_bot, upload_bot_code,
        bind, gets; by rewrite Hq.
  - intros output. unfold view_logs, bind, gets. by rewrite Hq.
  - intros form_data. unfold update_env_vars, bind, gets. by rewrite Hq.
Qed.

Lemma unknown_bot_is_not_found_witness :
  let s := platform_on fresh_host in
  handle (Upload 9 beta_zip) s
    = (Raise (HTTPException 404 "Bot not found"), s).
Proof.
  intros s. destruct (unknown_bot_is_not_found 9 s) as (H & _); [reflexivity|].
  by apply H.
Defined.

(** ** The adapter *)

Lemma run_served_message bot_id env_vars start_command w :
  docker_client w = true → faults w = [] →
  is_Some (images w !! get_image_name bot_id) →
  ∃ c w',
    run_bot_container bot_id env_vars start_command w =
      ((true, "Container " +:+ get_container_name bot_id
              +:+ " started successfully (ID: " +:+ str (next_cid w) +:+ ")"),
       w') ∧
    containers w' = <[get_container_name bot_id := c]> (containers w) ∧
    running_state c = wanted_state bot_id env_vars start_command ∧
    c_short_id c = str (next_cid w) ∧
    journal w' = journal w ++
      replacement_calls bot_id env_vars start_command
        (bool_decide (is_Some (containers w !! get_container_name bot_id))).
Proof.
  intros Hdc Hf [d Hi]. unfold run_bot_container. rewrite Hdc.
  destruct (containers w !! get_container_name bot_id) as [c|] eqn:Hc.
  - crunch with (rewrite ?Hf, ?Hc, ?Hi, ?lookup_insert_eq, ?lookup_delete_eq).
    eexists _, _. split; [done|]. fields.
    rewrite delete_insert_eq, insert_delete_eq, <- !app_assoc. done.
  - crunch with (rewrite ?Hf, ?Hc, ?Hi).
    eexists _, _. split; [done|]. fields.
    rewrite <- !app_assoc. done.
Qed.

(** X6.  With the daemon connected and answering and the image of the
    bot built, a restart succeeds whether or not the bot had a container,
    answers ["Restarted: Container bot_<id> started successfully (ID:
    <container id>)"], and leaves the bot with a new container in the
    wanted running state.  The container is looked up twice: once to stop
    and remove it, once more, in vain, before the new one is started. *)
Theorem restart_replaces_container (bot_id : Z)
    (env_vars : gmap string string) (start_command : string) (w : World) :
  docker_client w = true → faults w = [] →
  is_Some (images w !! get_image_name bot_id) →
  let name := get_container_name bot_id in
  let after := restart_bot_container bot_id env_vars start_command w in
  ∃ c,
    after.1 = (true, "Restarted: Container " +:+ name
                     +:+ " started successfully (ID: "
                     +:+ str (next_cid w) +:+ ")") ∧
    containers after.2 = <[name := c]> (containers w) ∧
    running_state c = wanted_state bot_id env_vars start_command ∧
    c_short_id c = str (next_cid w) ∧
    journal after.2 = journal w ++
      ContainersGet name ::
      (if bool_decide (is_Some (containers w !! name))
       then [ContainerStop name 10; ContainerRemove name] else []) ++
      replacement_calls bot_id env_vars start_command false.
Proof.
  intros Hdc Hf Hi name after. subst name after. unfold restart_bot_container.
  destruct (containers w !! get_container_name bot_id) as [c0|] eqn:Hc.
  - destruct (stop_present bot_id w c0 Hdc Hf Hc)
      as (w1 & -> & Hdc1 & Hf1 & Hc1 & Hi1 & _ & _ & Hn1 & Hj1).
    cbn [negb]. rewrite <- Hi1 in Hi.
    destruct (run_served_message bot_id env_vars start_command w1 Hdc1 Hf1 Hi)
      as (c & w2 & -> & Hc2 & Hs & Hid & Hj2).
    exists c. cbn [fst snd]. rewrite Hn1 in *.
    split; [done|]. split.
    { rewrite Hc2, Hc1. apply insert_delete_eq. }
    split; [done|]. split; [done|].
    rewrite Hj2, Hj1, Hc1, lookup_delete_eq.
    rewrite (bool_decide_eq_true_2 (is_Some (Some c0))) by eauto.
    rewrite (bool_decide_eq_false_2 (is_Some None)) by (by intros [? ?]).
    by rewrite <- app_assoc.
  - rewrite (stop_absent bot_id w Hdc Hf Hc). cbn [negb].
    destruct (run_served_message bot_id env_vars start_command
                (set_journal (journal w ++ [ContainersGet (get_container_name bot_id)]) w))
      as (c & w2 & -> & Hc2 & Hs & Hid & Hj2); [done|done|done|].
    exists c. cbn [fst snd]. fields.
    split; [done|]. split; [done|]. split; [done|]. split; [done|].
    rewrite Hj2. fields. rewrite Hc.
    rewrite !bool_decide_eq_false_2 by (by intros [? ?]).
    by rewrite <- app_assoc.
Qed.

Lemma restart_replaces_container_witness :
  let after := restart_bot_container 1 ∅ "python bot.py"
                 (host_with_container "exited") in
  after.1 = (true, "Restarted: Container bot_1 started successfully (ID: 1)") ∧
  c_status <$> containers after.2 !! get_container_name 1 = Some "running".
Proof.
  intros after.
  destruct (restart_replaces_container 1 ∅ "python bot.py"
              (host_with_container "exited"))
    as (c & H1 & H2 & H3 & _); [reflexivity|reflexivity|by eexists|].
  split; [exact H1|]. fold after in H2. rewrite H2, lookup_insert_eq.
  cbn. f_equal. by injection H3.
Defined.

Lemma stop_bot_container_starts_nothing w0 bot_id :
  tinv (calls_since (λ c, negb (is_run c)) w0) (stop_bot_container bot_id).
Proof.
  intros w Hw; unfold stop_bot_container.
  destruct (docker_client w); cbn [negb]; [|exact Hw].
  apply tinv_catching; [|exact Hw]. inv_auto.
Qed.

(** X7.  When the container of a bot cannot be stopped, a restart gives
    up: it answers with the failure of the stop, prefixed, and the new
    container is never started.  The old container stays as the failed
    stop left it, which may be stopped and not removed. *)
Theorem restart_gives_up_when_stop_fails (bot_id : Z)
    (env_vars : gmap string string) (start_command : string) (w : World) :
  let stop := stop_bot_container bot_id w in
  stop.1.1 = false →
  restart_bot_container bot_id env_vars start_command w
    = ((false, "Failed to stop container: " +:+ stop.1.2), stop.2) ∧
  calls_since (λ c, negb (is_run c)) w
    (restart_bot_container bot_id env_vars start_command w).2.
Proof.
  intros stop Hstop.
  assert (Hcalls : calls_since (λ c, negb (is_run c)) w stop.2).
  { apply stop_bot_container_starts_nothing, calls_since_refl. }
  unfold restart_bot_container. fold stop.
  destruct stop as [[ok msg] w1]. cbn [fst snd] in *. subst ok. done.
Qed.

Lemma restart_gives_up_when_stop_fails_witness :
  let after := restart_bot_container 1 ∅ "python bot.py"
                 host_where_remove_fails in
  after.1 = (false, "Failed to stop container: Failed to stop container: "
                    +:+ "409 Client Error: removal already in progress") ∧
  c_status <$> containers after.2 !! get_container_name 1 = Some "exited".
Proof.
  intros after.
  destruct (restart_gives_up_when_stop_fails 1 ∅ "python bot.py"
              host_where_remove_fails) as (H & _); [by vm_compute|].
  fold after in H. rewrite H. by vm_compute.
Defined.

Lemma same_resources_refl w : same_resources w w.
Proof. by repeat split. Qed.

Lemma get_bot_logs_same_resources w0 output bot_id tail :
  tinv (same_resources w0) (get_bot_logs output bot_id tail).
Proof.
  intros w Hw. unfold get_bot_logs.
  destruct (docker_client w); cbn [negb]; [|exact Hw].
  apply tinv_catching; [|exact Hw].
  unfold containers_get, container_logs. field_inv.
Qed.

(** X8.  Asking for the status or for the logs of a bot changes nothing
    on the host: containers, images, files and directories are the same
    afterwards, whatever the daemon answers. *)
Theorem queries_are_read_only (output : string → Z → string)
    (bot_id tail : Z) (w : World) :
  same_resources w (get_bot_status bot_id w).2 ∧
  same_resources w (get_bot_logs output bot_id tail w).2.
Proof.
  split.
  - unfold get_bot_status.
    destruct (docker_client w); cbn [negb]; [|apply same_resources_refl].
    apply tinv_catching; [|apply same_resources_refl].
    unfold containers_get. field_inv.
  - apply get_bot_logs_same_resources, same_resources_refl.
Qed.

(** X9.  The logs page of a bot on record is always rendered, for the last
    200 lines: a failure to get the logs becomes the text of the page.
    For a bot that was never started, with the daemon connected and
    answering, the page reads ["Error fetching logs: Container bot_<id>
    not found"]; for a bot with a container it shows what the daemon
    returns.  The registry is not touched. *)
Theorem logs_page_is_always_rendered (output : string → Z → string)
    (bot_id : Z) (bot : BotApp) (s : Sys) :
  query_bot bot_id (db s) = Some bot →
  let after := view_logs output bot_id s in
  (∃ logs, after.1 = Ok (LogsPage bot logs)) ∧
  db after.2 = db s ∧
  (docker_client (world s) = true → faults (world s) = [] →
     after.1 = Ok (LogsPage bot
       (if bool_decide (is_Some (containers (world s)
                                   !! get_container_name bot_id))
        then output (get_container_name bot_id) 200
        else "Error fetching logs: Container " +:+ get_container_name bot_id
             +:+ " not found"))).
Proof.
  intros Hq after. subst after. pose proof (query_bot_id _ _ _ Hq) as Hid.
  unfold view_logs, bind, gets, in_world, call. rewrite Hq, Hid.
  destruct s as [d w]. cbn [db world].
  split; [|split].
  - destruct (get_bot_logs output bot_id 200 w) as [[[] msg] w1]; by eexists.
  - by destruct (get_bot_logs output bot_id 200 w) as [[[] msg] w1].
  - intros Hdc Hf. unfold get_bot_logs. rewrite Hdc.
    destruct (containers w !! get_container_name bot_id) as [c|] eqn:Hc.
    + unfold container_logs. crunch with (rewrite ?Hf, ?Hc).
      rewrite bool_decide_eq_true_2 by eauto. done.
    + unfold container_logs. crunch with (rewrite ?Hf, ?Hc).
      rewrite bool_decide_eq_false_2 by (by intros [? ?]). done.
Qed.

Lemma logs_page_is_always_rendered_witness :
  (view_logs (λ _ _, "2024-01-01T00:00:00Z started") 2 (platform_on fresh_host)).1
    = Ok (LogsPage beta "Error fetching logs: Container bot_2 not found").
Proof.
  destruct (logs_page_is_always_rendered (λ _ _, "2024-01-01T00:00:00Z started")
              2 beta (platform_on fresh_host)) as (_ & _ & H); [reflexivity|].
  apply H; reflexivity.
Defined.

(** ** The fetcher *)

Ltac unfold_fetch :=
  unfold clone_or_pull_repo, subprocess_run, os_makedirs, catching,
    record_call, may_fail, bind, gets, modify, ret, raise;
  fields.

Lemma fetch_reached repo_url code_path w :
  has_working_copy code_path w || can_make_parent code_path w = true →
  (clone_or_pull_repo repo_url code_path w).1
    = fetch_answer (has_working_copy code_path w) (git_outcome w).
Proof.
  unfold has_working_copy, can_make_parent, served. unfold_fetch.
  destruct (os_path_exists code_path w && os_path_isdir _ w) eqn:Hrepo;
    cbn [orb].
  - intros _. destruct (git_outcome w) as [rc out err|msg|msg]; cbn; [|done..].
    destruct (decide (rc = 0));
      [rewrite !bool_decide_eq_true_2 by done
      |rewrite !bool_decide_eq_false_2 by done]; reflexivity.
  - destruct (truthy (os_path_dirname code_path)); [|by rewrite andb_false_r].
    destruct (faults w) as [|[fault|] fs]; [|done|]; intros _; fields.
    + destruct (git_outcome w) as [rc out err|msg|msg]; cbn; [|done..].
    destruct (decide (rc = 0));
      [rewrite !bool_decide_eq_true_2 by done
      |rewrite !bool_decide_eq_false_2 by done]; reflexivity.
    + destruct (git_outcome w) as [rc out err|msg|msg]; cbn; [|done..].
      destruct (decide (rc = 0));
      [rewrite !bool_decide_eq_true_2 by done
      |rewrite !bool_decide_eq_false_2 by done]; reflexivity.
Qed.

Lemma fetch_not_reached repo_url code_path w :
  has_working_copy code_path w || can_make_parent code_path w = false →
  (clone_or_pull_repo repo_url code_path w).1.1 = false.
Proof.
  unfold has_working_copy, can_make_parent, served. unfold_fetch.
  destruct (os_path_exists code_path w && os_path_isdir _ w) eqn:Hrepo;
    cbn [orb]; [done|].
  destruct (faults w) as [|[fault|] fs]; cbn [andb]; try done;
    destruct (truthy (os_path_dirname code_path)); done.
Qed.

(** X10.  The fetch succeeds exactly when git is reached and exits with
    0.  Git is reached when the code path holds a working copy (it is
    then asked to pull) or else when the parent directory can be made (it
    is then asked to clone).  Once git is reached, a timeout is reported
    as ["Git operation timed out"], and an exit code other than 0 as a
    failure carrying what git wrote to stderr. *)
Theorem fetch_succeeds_iff_git_exits_zero (repo_url code_path : string)
    (w : World) :
  let result := (clone_or_pull_repo repo_url code_path w).1 in
  let reached := has_working_copy code_path w || can_make_parent code_path w in
  (result.1 = true ↔
     reached = true ∧ ∃ out err, git_outcome w = Completed 0 out err) ∧
  (reached = true → ∀ msg, git_outcome w = TimedOut msg →
     result = (false, "Git operation timed out")) ∧
  (reached = true → ∀ rc out err, git_outcome w = Completed rc out err →
     rc ≠ 0 →
     result = (false, (if has_working_copy code_path w
                       then "Git pull failed:" else "Git clone failed:")
                      +:+ nl +:+ err)).
Proof.
  intros result reached. subst result.
  destruct reached eqn:Hreached; subst reached.
  - rewrite (fetch_reached _ _ _ Hreached). split; [|split].
    + destruct (git_outcome w) as [rc out err|msg|msg]; cbn.
      * destruct (bool_decide (rc = 0)) eqn:Hrc; cbn.
        -- apply bool_decide_eq_true in Hrc as ->. split; eauto.
        -- apply bool_decide_eq_false in Hrc.
           split; [done|]. by intros (_ & ? & ? & [= -> _ _]).
      * split; [done|]. by intros (_ & ? & ? & ?).
      * split; [done|]. by intros (_ & ? & ? & ?).
    + by intros _ msg ->.
    + intros _ rc out err -> Hne. cbn.
      by rewrite bool_decide_eq_false_2.
  - rewrite (fetch_not_reached _ _ _ Hreached). split; [|done].
    split; [done|]. by intros [? _].
Qed.

Lemma fetch_succeeds_iff_git_exits_zero_witness :
  (clone_or_pull_repo "https://example/alpha.git" "/srv/bots/alpha"
     host_where_git_hangs).1 = (false, "Git operation timed out").
Proof.
  destruct (fetch_succeeds_iff_git_exits_zero "https://example/alpha.git"
              "/srv/bots/alpha" host_where_git_hangs) as (_ & H & _).
  by eapply H.
Defined.

Lemma fetch_pull_state repo_url code_path w :
  has_working_copy code_path w = true →
  clone_or_pull_repo repo_url code_path w =
    (fetch_answer true (git_outcome w),
     set_journal
       (journal w ++ [SubprocessRun ["git"; "pull"] (Some code_path) 60]) w).
Proof.
  unfold has_working_copy. unfold_fetch. intros ->.
  destruct (git_outcome w) as [rc out err|msg|msg]; cbn; [|done..].
  destruct (decide (rc = 0));
    [rewrite !bool_decide_eq_true_2 by done
    |rewrite !bool_decide_eq_false_2 by done]; reflexivity.
Qed.

Lemma fetch_first_clone_state repo_url code_path w out err :
  has_working_copy code_path w = false →
  faults w = [] → truthy (os_path_dirname code_path) = true →
  git_outcome w = Completed 0 out err →
  ∃ w',
    clone_or_pull_repo repo_url code_path w =
      ((true, "Successfully cloned repository:" +:+ nl +:+ out), w') ∧
    has_working_copy code_path w' = true ∧
    git_outcome w' = git_outcome w ∧
    journal w' = journal w ++
      [SubprocessRun ["git"; "clone"; repo_url; code_path] None 120].
Proof.
  unfold has_working_copy. unfold_fetch. intros -> -> -> Hgit. fields.
  rewrite Hgit. cbn [bool_decide decide_rel]. 
  rewrite !bool_decide_eq_true_2 by done. fields.
  eexists. split; [reflexivity|]. fields. split; [|by rewrite Hgit].
  unfold os_path_exists, os_path_isdir. fields.
  rewrite !bool_decide_eq_true_2; [done| |right]; set_solver.
Qed.

(** X11.  First clone, then update: where the code path holds no working
    copy and git exits with 0, the first fetch clones into the code path
    (timeout 120 s) and the next fetch of the same bot pulls inside it
    (timeout 60 s). *)
Theorem second_fetch_pulls (repo_url code_path : string) (w : World)
    (out err : string) :
  has_working_copy code_path w = false →
  faults w = [] → truthy (os_path_dirname code_path) = true →
  git_outcome w = Completed 0 out err →
  let first := clone_or_pull_repo repo_url code_path w in
  let second := clone_or_pull_repo repo_url code_path first.2 in
  first.1 = (true, "Successfully cloned repository:" +:+ nl +:+ out) ∧
  second.1 = (true, "Successfully pulled latest changes:" +:+ nl +:+ out) ∧
  journal second.2 = journal w ++
    [SubprocessRun ["git"; "clone"; repo_url; code_path] None 120;
     SubprocessRun ["git"; "pull"] (Some code_path) 60].
Proof.
  intros Hnew Hf Hdir Hgit first second.
  destruct (fetch_first_clone_state repo_url code_path w out err
              Hnew Hf Hdir Hgit) as (w1 & E1 & Hcopy & Hgit1 & Hj1).
  subst first second. rewrite E1. cbn [fst snd].
  rewrite (fetch_pull_state repo_url code_path w1 Hcopy). cbn [fst snd].
  rewrite Hgit1, Hgit. fields. rewrite Hj1, <- app_assoc. done.
Qed.

Lemma second_fetch_pulls_witness :
  let first := clone_or_pull_repo "https://example/alpha.git"
                 "/srv/bots/alpha" fresh_host in
  (clone_or_pull_repo "https://example/alpha.git" "/srv/bots/alpha" first.2).1
    = (true, "Successfully pulled latest changes:" +:+ nl
             +:+ "Cloning into '/srv/bots/alpha'...").
Proof.
  intros first.
  destruct (second_fetch_pulls "https://example/alpha.git" "/srv/bots/alpha"
              fresh_host "Cloning into '/srv/bots/alpha'..." EmptyString)
    as (_ & H & _); [reflexivity|reflexivity|reflexivity|reflexivity|exact H].
Defined.

(** ** Building and running *)

Lemma os_path_exists_dir p w : p ∈ dirs w → os_path_exists p w = true.
Proof. intros H. unfold os_path_exists. apply bool_decide_eq_true_2. eauto. Qed.

(** X12.  What a build leaves behind.  When [build_bot_image] reports
    failure, no image tag and no container has changed.  When it reports
    success, the tag of the bot points at an image built from the
    Dockerfile it installed in the code directory (the platform's
    template, or the basic Dockerfile), and its message is
    ["Image built successfully: <tag>"] followed by the stripped stream
    lines of the build. *)
Theorem build_outcome_and_image (bot_id : Z) (code_path : string) (w : World) :
  let after := build_bot_image bot_id code_path w in
  (after.1.1 = false →
     images after.2 = images w ∧ containers after.2 = containers w) ∧
  (after.1.1 = true →
     after.1.2 = "Image built successfully: " +:+ get_image_name bot_id +:+ nl
                 +:+ join nl (stream_lines (build_logs w)) ∧
     images after.2
       = <[get_image_name bot_id := installed_dockerfile w]> (images w) ∧
     files after.2
       = <[os_path_join code_path "Dockerfile" := installed_dockerfile w]>
           (files w)).
Proof.
  intros after. subst after. unfold build_bot_image, installed_dockerfile.
  destruct (docker_client w); cbn [negb]; [|done].
  destruct (files w !! "/app/BotDockerfile.template") as [t1|] eqn:Ht1;
    [pose proof (os_path_exists_file _ _ _ Ht1) as Hex1
    |destruct (decide ("/app/BotDockerfile.template" ∈ dirs w)) as [Hd1|Hd1];
     [pose proof (os_path_exists_dir _ _ Hd1) as Hex1
     |pose proof (os_path_exists_neither _ _ Ht1 Hd1) as Hex1]];
  (destruct (files w !! "BotDockerfile.template") as [t2|] eqn:Ht2;
    [pose proof (os_path_exists_file _ _ _ Ht2) as Hex2
    |destruct (decide ("BotDockerfile.template" ∈ dirs w)) as [Hd2|Hd2];
     [pose proof (os_path_exists_dir _ _ Hd2) as Hex2
     |pose proof (os_path_exists_neither _ _ Ht2 Hd2) as Hex2]]);
  (destruct (faults w) as [|[msg|] fs] eqn:Hf;
    [| |destruct fs as [|[msg'|] fs']]);
  crunch with (rewrite ?Hex1, ?Hex2, ?Hf, ?Ht1, ?Ht2, ?lookup_insert_eq);
  (split; [intros _; done|intros H; try discriminate H; done]) ||
  (split; [intros H; try discriminate H; done|intros H; try discriminate H; done]).
Qed.

Lemma build_outcome_and_image_witness :
  let failed := build_bot_image 1 "/srv/bots/alpha"
                  (set_faults [None; Some "no space left on device"]
                     (host_with_container "running")) in
  let built := build_bot_image 1 "/srv/bots/alpha" host_with_custom_dockerfile in
  images failed.2 = images (host_with_container "running") ∧
  images built.2 !! get_image_name 1 = Some basic_dockerfile.
Proof.
  intros failed built. split.
  - destruct (build_outcome_and_image 1 "/srv/bots/alpha"
                (set_faults [None; Some "no space left on device"]
                   (host_with_container "running"))) as [H _].
    destruct H as [H _]; [by vm_compute|exact H].
  - destruct (build_outcome_and_image 1 "/srv/bots/alpha"
                host_with_custom_dockerfile) as [_ H].
    destruct H as (_ & H & _); [by vm_compute|].
    fold built in H. rewrite H. by vm_compute.
Defined.

Lemma has_space_snoc w c :
  has_space (w +:+ String c EmptyString) = has_space w || isspace c.
Proof.
  induction w as [|d w IH].
  - change (EmptyString +:+ String c EmptyString) with (String c EmptyString).
    cbn -[isspace]. by destruct (isspace c).
  - change (String d w +:+ String c EmptyString)
      with (String d (w +:+ String c EmptyString)).
    cbn -[isspace]. by rewrite IH, orb_assoc.
Qed.

Lemma is_word_snoc w c :
  (w = EmptyString ∨ is_word w = true) → isspace c = false →
  is_word (w +:+ String c EmptyString) = true.
Proof.
  intros Hw Hc. unfold is_word. rewrite has_space_snoc, Hc, orb_false_r.
  destruct Hw as [->|Hw]; [done|].
  apply andb_true_iff in Hw as [Ht ->]. destruct w; [done|].
  by rewrite andb_true_r.
Qed.

Lemma split_from_words s cur :
  (∀ w, cur = Some w → is_word w = true) →
  Forall (λ w, is_word w = true) (split_from cur s).
Proof.
  revert cur. induction s as [|c s IH]; intros cur Hcur; cbn [split_from].
  - destruct cur as [w|]; [|done]. constructor; [by apply Hcur|done].
  - destruct (isspace c) eqn:Hc.
    + destruct cur as [w|].
      * constructor; [by apply Hcur|]. by apply IH.
      * by apply IH.
    + apply IH. intros w [= <-]. apply is_word_snoc; [|done].
      destruct cur as [w|]; [right; by apply Hcur|by left].
Qed.

Lemma split_blank s : all_space s = true → split s = [].
Proof.
  unfold split. induction s as [|c s IH]; cbn [split_from all_space]; [done|].
  intros [Hc Hs]%andb_true_iff. rewrite Hc. by apply IH.
Qed.

(** X13.  How the start command reaches the container.  With the daemon
    connected and answering and the image built, the container is started
    with the start command cut at white space: every part is a non-empty
    word without white space.  An empty start command gives
    [python bot.py]; a start command made of white space only is not
    empty, and gives the empty command. *)
Theorem start_command_is_split_into_words (bot_id : Z)
    (env_vars : gmap string string) (start_command : string) (w : World) :
  docker_client w = true → faults w = [] →
  is_Some (images w !! get_image_name bot_id) →
  ∃ c,
    containers (run_bot_container bot_id env_vars start_command w).2
      !! get_container_name bot_id = Some c ∧
    Forall (λ part, is_word part = true) (c_command c) ∧
    (start_command = EmptyString → c_command c = ["python"; "bot.py"]) ∧
    (start_command ≠ EmptyString → all_space start_command = true →
       c_command c = []).
Proof.
  intros Hdc Hf Hi.
  destruct (run_served bot_id env_vars start_command w Hdc Hf Hi)
    as (msg & c & w' & -> & _ & _ & _ & _ & _ & Hc & Hs & _).
  exists c. cbn [fst snd]. rewrite Hc, lookup_insert_eq. split; [done|].
  injection Hs as _ _ _ Hcmd _ _. rewrite Hcmd.
  split; [|split].
  - destruct (truthy start_command).
    + by apply split_from_words.
    + by repeat constructor.
  - by intros ->.
  - intros Hne Hblank. destruct start_command; [done|].
    cbn [truthy]. by apply split_blank.
Qed.

Lemma start_command_is_split_into_words_witness :
  c_command <$> containers (run_bot_container 1 ∅ "   "
                              (host_with_container "running")).2
                  !! get_container_name 1 = Some [].
Proof.
  destruct (start_command_is_split_into_words 1 ∅ "   "
              (host_with_container "running"))
    as (c & -> & _ & _ & H); [reflexivity|reflexivity|by eexists|].
  cbn. f_equal. by apply H.
Defined.

(** ** Creating bots *)

Lemma fresh_bot_id_above bs : Forall (λ b, b_id b < fresh_bot_id bs) bs.
Proof.
  unfold fresh_bot_id. induction bs as [|b bs IH]; constructor; cbn.
  - lia.
  - eapply Forall_impl; [exact IH|]. cbn. intros; lia.
Qed.

Lemma find_name_none name bs :
  List.find (λ b, (b_name b =? name)%string) bs = None ↔
  name ∉ (b_name <$> bs).
Proof.
  induction bs as [|b bs IH]; cbn.
  - split; [intros _; apply not_elem_of_nil|done].
  - destruct (b_name b =? name)%string eqn:E.
    + apply String.eqb_eq in E. split; [done|]. intros H. exfalso.
      apply H. rewrite E. left.
    + apply String.eqb_neq in E. rewrite IH, not_elem_of_cons.
      split; [by split|by intros [_ ?]].
Qed.

(** What [create_bot] does, case by case. *)
Lemma create_bot_cases name runtime start_command repo_url s :
  let after := create_bot name runtime start_command repo_url s in
  (name_taken name (db s) ∧ after.2 = s ∧
   after.1 = Ok (NewBotForm ("Bot with name '" +:+ name
                             +:+ "' already exists"))) ∨
  (¬ name_taken name (db s) ∧ served (world s) = false ∧
   db after.2 = db s ∧ ∃ e, after.1 = Raise e) ∨
  (¬ name_taken name (db s) ∧ served (world s) = true ∧
   after.1 = Ok (Redirect (bot_page (fresh_bot_id (bots (db s))))) ∧
   bots (db after.2) = bots (db s) ++
     [new_bot (fresh_bot_id (bots (db s))) name runtime start_command repo_url] ∧
   env_vars (db after.2) = env_vars (db s) ∧
   deployments (db after.2) = deployments (db s) ∧
   dirs (world after.2) = dirs (world s) ∪ {["/srv/bots/" +:+ name]} ∧
   same_runtime (world s) (world after.2)).
Proof.
  intros after. subst after. unfold name_taken.
  unfold create_bot, bind, gets.
  destruct (List.find _ (bots (db s))) as [b|] eqn:Hfind.
  - left. split; [|done].
    apply dec_stable. intros Hn. apply find_name_none in Hn. congruence.
  - right. apply find_name_none in Hfind.
    unfold in_world, os_makedirs, served, bind, may_fail, modify, ret.
    destruct s as [d w]. cbn [db world] in *.
    destruct (faults w) as [|[msg|] fs] eqn:Hf; cbn.
    + right. repeat split; try done.
    + left. repeat split; try done. by eexists.
    + right. repeat split; try done.
Qed.

Lemma query_bot_app_old bot_id bs d b bot :
  bots d = bs ++ [b] →
  List.find (λ x, bool_decide (b_id x = bot_id)) bs = Some bot →
  query_bot bot_id d = Some bot.
Proof.
  intros Hd Hfind. unfold query_bot. rewrite Hd. clear Hd.
  induction bs as [|x bs IH]; cbn [List.find app] in *; [done|].
  revert Hfind. destruct (bool_decide (b_id x = bot_id)); [done|]. apply IH.
Qed.

Lemma query_bot_app_new bs d b :
  bots d = bs ++ [b] → Forall (λ x, b_id x < b_id b) bs →
  query_bot (b_id b) d = Some b.
Proof.
  intros Hd Hlt. unfold query_bot. rewrite Hd. clear Hd.
  induction Hlt as [|x bs Hx _ IH]; cbn [List.find app].
  - by rewrite bool_decide_eq_true_2.
  - rewrite bool_decide_eq_false_2 by lia. exact IH.
Qed.

(** X14.  Creating a bot keeps the registry well formed: if the names
    of the bots were distinct they still are, whatever name is asked for;
    a bot that is added gets an identifier above all existing ones; the
    bots on record stay as they were, and so do the environment variables
    and the deployments. *)
Theorem create_bot_keeps_bots_distinct (name runtime start_command : string)
    (repo_url : option string) (s : Sys) :
  NoDup (b_name <$> bots (db s)) →
  let after := (create_bot name runtime start_command repo_url s).2 in
  NoDup (b_name <$> bots (db after)) ∧
  (∀ b, b ∈ bots (db after) → b ∉ bots (db s) →
     Forall (λ x, b_id x < b_id b) (bots (db s))) ∧
  (∃ new, bots (db after) = bots (db s) ++ new) ∧
  env_vars (db after) = env_vars (db s) ∧
  deployments (db after) = deployments (db s).
Proof.
  intros Hnames after. subst after.
  destruct (create_bot_cases name runtime start_command repo_url s)
    as [(_ & -> & _)|[(_ & _ & -> & _)|(Hfree & _ & _ & Hb & He & Hd & _)]].
  - repeat split; try done. exists []. by rewrite app_nil_r.
  - repeat split; try done. exists []. by rewrite app_nil_r.
  - rewrite Hb, He, Hd. split; [|split; [|split; [by eexists|done]]].
    + rewrite fmap_app. apply NoDup_app. split; [done|].
      split; [|apply NoDup_singleton].
      intros x Hx [->|[]%elem_of_nil]%elem_of_cons. done.
    + intros b [Hin|[->|[]%elem_of_nil]%elem_of_cons]%elem_of_app Hnew;
        [done|]. apply fresh_bot_id_above.
Qed.

(** X15.  A bot created under a free name, with the file system serving
    the call, is on record afterwards: the answer redirects to its page,
    looking its identifier up gives the bot as entered, with the code path
    [/srv/bots/<name>] and the repository URL stripped, that directory
    exists, and every bot that could be looked up before still can. *)
Theorem created_bot_is_on_record (name runtime start_command : string)
    (repo_url : option string) (s : Sys) :
  ¬ name_taken name (db s) → served (world s) = true →
  let n := fresh_bot_id (bots (db s)) in
  let after := create_bot name runtime start_command repo_url s in
  after.1 = Ok (Redirect (bot_page n)) ∧
  query_bot n (db after.2)
    = Some (new_bot n name runtime start_command repo_url) ∧
  (∀ m b, query_bot m (db s) = Some b → query_bot m (db after.2) = Some b) ∧
  "/srv/bots/" +:+ name ∈ dirs (world after.2).
Proof.
  intros Hfree Hs n after. subst after n.
  destruct (create_bot_cases name runtime start_command repo_url s)
    as [(Hin & _)|[(_ & Hs' & _)|(_ & _ & Hr & Hb & _ & _ & Hdirs & _)]];
    [done|congruence|].
  split; [exact Hr|]. split; [|split].
  - apply (query_bot_app_new (bots (db s)) _ _ Hb), fresh_bot_id_above.
  - intros m b Hq.
    apply (query_bot_app_old m (bots (db s)) _ _ _ Hb). exact Hq.
  - rewrite Hdirs. apply elem_of_union. right. by apply elem_of_singleton.
Qed.

Lemma create_bot_keeps_bots_distinct_witness :
  NoDup (b_name <$> bots (db (create_bot "alpha" "python" "python bot.py" None
                                (platform_on fresh_host)).2)).
Proof.
  apply (create_bot_keeps_bots_distinct "alpha" "python" "python bot.py" None
           (platform_on fresh_host)).
  apply (bool_decide_unpack _). by vm_compute.
Defined.

Lemma created_bot_is_on_record_witness :
  query_bot 3 (db (create_bot "gamma" "python" "python bot.py"
                     (Some " https://example/gamma.git ")
                     (platform_on fresh_host)).2)
    = Some {| b_id := 3; b_name := "gamma";
              b_repo_url := Some "https://example/gamma.git";
              b_code_path := "/srv/bots/gamma"; b_runtime := "python";
              b_start_command := "python bot.py" |}.
Proof.
  destruct (created_bot_is_on_record "gamma" "python" "python bot.py"
              (Some " https://example/gamma.git ") (platform_on fresh_host))
    as (_ & H & _); [|reflexivity|exact H].
  unfold name_taken. apply (bool_decide_unpack _). by vm_compute.
Defined.

Lemma lstrip_blank s : all_space s = true → lstrip s = EmptyString.
Proof.
  induction s as [|c s IH]; cbn [all_space lstrip]; [done|].
  intros [-> Hs]%andb_true_iff. by apply IH.
Qed.

Lemma clean_repo_url_blank repo_url :
  repo_url = None ∨ (∃ u, repo_url = Some u ∧ all_space u = true) →
  clean_repo_url repo_url = None.
Proof.
  intros [->|(u & -> & Hu)]; [done|]. unfold clean_repo_url, strip.
  rewrite (lstrip_blank u Hu). cbn. by rewrite andb_false_r.
Qed.

Lemma clean_repo_url_truthy repo_url url :
  clean_repo_url repo_url = Some url → truthy url = true.
Proof.
  unfold clean_repo_url. destruct repo_url as [u|]; [|done].
  destruct (truthy u); cbn [andb]; [|done].
  destruct (truthy (strip u)) eqn:E; [|done]. by intros [= <-].
Qed.

(** X16.  A bot created without a repository URL, or with one made of
    white space only, is on record without URL, and a deploy of it is
    refused with status 400 and changes nothing.  A bot created with any
    other URL passes that check: a deploy of it records a deployment and
    finalizes it. *)
Theorem bot_created_without_url_cannot_be_deployed
    (name runtime start_command : string) (repo_url : option string) (s : Sys) :
  ¬ name_taken name (db s) → served (world s) = true →
  let n := fresh_bot_id (bots (db s)) in
  let created := (create_bot name runtime start_command repo_url s).2 in
  (repo_url = None ∨ (∃ u, repo_url = Some u ∧ all_space u = true) →
     deploy_bot n created
       = (Raise (HTTPException 400 "No repository URL configured"), created)) ∧
  (∀ url, clean_repo_url repo_url = Some url →
     ∃ v lg,
       deployments (db (deploy_bot n created).2) = deployments (db s) ++
         [row (fresh_id (deployments (db s))) n v lg] ∧
       terminal v).
Proof.
  intros Hfree Hs n created.
  destruct (created_bot_is_on_record name runtime start_command repo_url s
              Hfree Hs) as (_ & Hq & _).
  fold n created in Hq.
  assert (Hd : deployments (db created) = deployments (db s)).
  { subst created.
    by destruct (create_bot_cases name runtime start_command repo_url s)
      as [(_ & -> & _)|[(_ & _ & -> & _)|(_ & _ & _ & _ & _ & -> & _)]]. }
  split.
  - intros Hblank. unfold deploy_bot, bind, gets. rewrite Hq.
    cbn [new_bot b_repo_url]. by rewrite (clean_repo_url_blank _ Hblank).
  - intros url Hurl.
    destruct (deploy_bot_creates_record n _ created Hq)
      as (v & lg & ws & (_ & _ & Hdep & _) & Hv & _).
    { cbn [new_bot b_repo_url]. rewrite Hurl. cbn [truthy_opt].
      by eapply clean_repo_url_truthy. }
    exists v, lg. by rewrite Hdep, Hd.
Qed.

Lemma bot_created_without_url_cannot_be_deployed_witness :
  let created := (create_bot "gamma" "python" "python bot.py" (Some "  ")
                    (platform_on fresh_host)).2 in
  deploy_bot 3 created
    = (Raise (HTTPException 400 "No repository URL configured"), created).
Proof.
  intros created.
  destruct (bot_created_without_url_cannot_be_deployed "gamma" "python"
              "python bot.py" (Some "  ") (platform_on fresh_host))
    as (H & _); [|reflexivity|].
  - unfold name_taken. apply (bool_decide_unpack _). by vm_compute.
  - apply H. right. by eexists.
Defined.

(** ** Environment variables *)

Lemma for_each_rows {A} (body : A → M Sys unit) (f : A → option BotEnvVar)
    items s :
  (∀ item s, body item s =
     (Ok tt, match f item with
             | Some ev => (add_env_var ev s).2
             | None => s
             end)) →
  let after := for_each items body s in
  after.1 = Ok tt ∧
  bots (db after.2) = bots (db s) ∧
  env_vars (db after.2) = env_vars (db s) ++ omap f items ∧
  deployments (db after.2) = deployments (db s) ∧
  status_writes (db after.2) = status_writes (db s) ∧
  world after.2 = world s.
Proof.
  intros Hbody. revert s.
  induction items as [|item items IH]; intros s after; subst after.
  - cbn. by rewrite app_nil_r.
  - cbn [for_each omap list_omap].
    assert (E : (body item;; for_each items body) s
                = for_each items body
                    match f item with
                    | Some ev => (add_env_var ev s).2
                    | None => s
                    end).
    { unfold bind. by rewrite Hbody. }
    rewrite E. destruct (f item) as [ev|].
    + destruct (IH (add_env_var ev s).2) as (H1 & H2 & H3 & H4 & H5 & H6).
      repeat split; try done. rewrite H3. cbn. by rewrite <- app_assoc.
    + apply IH.
Qed.

Lemma filter_others_twice bot_id evs :
  env_vars_of_others bot_id (env_vars_of_others bot_id evs)
    = env_vars_of_others bot_id evs.
Proof.
  unfold env_vars_of_others. induction evs as [|ev evs IH]; cbn; [done|].
  destruct (negb (bool_decide (ev_bot_id ev = bot_id))) eqn:E; cbn; [|done].
  by rewrite E, IH.
Qed.

Lemma submitted_belong_to_bot bot_id form_data items :
  Forall (λ ev, ev_bot_id ev = bot_id ∧ truthy (ev_key ev) = true)
    (omap (env_var_of_item bot_id form_data) items).
Proof.
  induction items as [|[key value] items IH]; cbn [omap list_omap]; [done|].
  unfold env_var_of_item at 1.
  destruct (String.prefix "env_key_" key); [|done].
  destruct (form_get form_data _) as [v|]; [|done].
  destruct (truthy value && truthy (strip value)) eqn:E; [|done].
  constructor; [|done]. cbn. by apply andb_true_iff in E as [_ ?].
Qed.

Lemma filter_others_own bot_id evs :
  Forall (λ ev, ev_bot_id ev = bot_id) evs → env_vars_of_others bot_id evs = [].
Proof.
  unfold env_vars_of_others. induction 1 as [|ev evs Hev _ IH]; cbn; [done|].
  by rewrite bool_decide_eq_true_2.
Qed.


Lemma update_env_vars_state bot_id form_data bot s :
  query_bot bot_id (db s) = Some bot →
  let after := update_env_vars bot_id form_data s in
  after.1 = Ok (bot_page bot_id) ∧
  env_vars (db after.2)
    = env_vars_of_others bot_id (env_vars (db s))
      ++ submitted_env_vars bot_id form_data ∧
  bots (db after.2) = bots (db s) ∧
  deployments (db after.2) = deployments (db s) ∧
  world after.2 = world s.
Proof.
  intros Hq after.
  assert (E : after =
    let loop := for_each form_data (store_item bot_id form_data)
                  (delete_env_vars bot_id s).2 in
    (match loop.1 with Ok _ => Ok (bot_page bot_id) | Raise e => Raise e end,
     loop.2)).
  { subst after. unfold update_env_vars, bind, gets. rewrite Hq.
    unfold delete_env_vars, modify, ret. cbn [fst snd].
    by destruct (for_each _ _ _) as [[[]|e] s2]. }
  rewrite E. clear E after. cbn zeta.
  destruct (for_each_rows (store_item bot_id form_data)
              (env_var_of_item bot_id form_data) form_data
              (delete_env_vars bot_id s).2) as (H1 & H2 & H3 & H4 & H5 & H6).
  { intros [key value] s1. unfold store_item, env_var_of_item.
    destruct (String.prefix "env_key_" key); [|done].
    destruct (form_get form_data _) as [v|]; [|done].
    by destruct (truthy value && truthy (strip value)). }
  cbn [fst snd]. rewrite H1, H2, H3, H4, H6. done.
Qed.

Lemma foldl_insert_last (rows : list BotEnvVar) (m : gmap string string) k :
  foldl (λ m ev, <[ev_key ev := ev_value ev]> m) m rows !! k
    = match last (with_key k rows) with
      | Some ev => Some (ev_value ev)
      | None => m !! k
      end.
Proof.
  revert m. induction rows as [|ev rows IH]; intros m; [done|].
  cbn [foldl]. rewrite IH. unfold with_key. cbn [List.filter].
  fold (with_key k rows).
  destruct (String.eqb_spec (ev_key ev) k) as [<-|Hne].
  - rewrite last_cons. destruct (last (with_key _ rows)); [done|].
    by rewrite lookup_insert_eq.
  - destruct (last (with_key k rows)); [done|].
    by rewrite lookup_insert_ne.
Qed.

Lemma filter_own_app bot_id others own :
  Forall (λ ev, ev_bot_id ev = bot_id) own →
  List.filter (λ ev, bool_decide (ev_bot_id ev = bot_id))
    (env_vars_of_others bot_id others ++ own) = own.
Proof.
  intros Hown. rewrite List.filter_app.
  assert (E1 : List.filter (λ ev, bool_decide (ev_bot_id ev = bot_id))
                 (env_vars_of_others bot_id others) = []).
  { unfold env_vars_of_others. induction others as [|ev evs IH]; [done|].
    cbn [List.filter].
    destruct (bool_decide (ev_bot_id ev = bot_id)) eqn:E; cbn [negb]; [done|].
    cbn [List.filter]. by rewrite E. }
  rewrite E1. cbn [app]. induction Hown as [|ev evs Hev _ IH]; [done|].
  cbn [List.filter]. by rewrite bool_decide_eq_true_2, IH.
Qed.

(** X17.  Saving the environment form of a bot on record (the fields of
    the form distinct, as the items of a dictionary are) replaces the
    variables of that bot wholesale and touches nothing else.  The rows of
    the other bots stay, in their order; the rows of the bot are exactly
    those the form gives, in the order of the form: one for every field
    [env_key_<i>] whose value is not blank and that comes with a field
    [env_value_<i>], the key stripped, the value as it was sent.  Every
    stored row belongs to the bot and has a non-empty key.  Bots,
    deployments and the world outside stay as they were, the answer is the
    redirect to the page of the bot, and saving the same form once more
    changes nothing. *)
Theorem env_vars_are_replaced_wholesale (bot_id : Z)
    (form_data : list (string * string)) (bot : BotApp) (s : Sys) :
  query_bot bot_id (db s) = Some bot →
  NoDup form_data.*1 →
  let after := update_env_vars bot_id form_data s in
  after.1 = Ok (bot_page bot_id) ∧
  env_vars (db after.2)
    = env_vars_of_others bot_id (env_vars (db s))
      ++ submitted_env_vars bot_id form_data ∧
  Forall (λ ev, ev_bot_id ev = bot_id ∧ truthy (ev_key ev) = true)
    (submitted_env_vars bot_id form_data) ∧
  bots (db after.2) = bots (db s) ∧
  deployments (db after.2) = deployments (db s) ∧
  world after.2 = world s ∧
  env_vars (db (update_env_vars bot_id form_data after.2).2)
    = env_vars (db after.2).
Proof.
  intros Hq _ after.
  destruct (update_env_vars_state bot_id form_data bot s Hq)
    as (H1 & H2 & H3 & H4 & H5).
  fold after in H1, H2, H3, H4, H5.
  assert (Hq' : query_bot bot_id (db after.2) = Some bot).
  { unfold query_bot in *. by rewrite H3. }
  destruct (update_env_vars_state bot_id form_data bot after.2 Hq')
    as (_ & H2' & _).
  pose proof (submitted_belong_to_bot bot_id form_data form_data) as Hsub.
  repeat split; try done.
  rewrite H2', H2. unfold env_vars_of_others at 1.
  rewrite List.filter_app.
  fold (env_vars_of_others bot_id (env_vars_of_others bot_id (env_vars (db s)))).
  fold (env_vars_of_others bot_id (submitted_env_vars bot_id form_data)).
  rewrite filter_others_twice, (filter_others_own bot_id (submitted_env_vars _ _)).
  - by rewrite app_nil_r.
  - eapply Forall_impl; [exact Hsub|]. by intros ev [? _].
Qed.

Lemma env_vars_are_replaced_wholesale_witness :
  let form := [("env_key_0", " TOKEN "); ("env_value_0", "abc");
               ("env_key_1", "  "); ("env_value_1", "lost")] in
  let after := update_env_vars 1 form (platform_on fresh_host) in
  query_bot 1 (db (platform_on fresh_host)) = Some alpha ∧
  env_vars (db after.2)
    = [{| ev_bot_id := 1; ev_key := "TOKEN"; ev_value := "abc" |}] ∧
  env_vars (db (update_env_vars 1 form after.2).2) = env_vars (db after.2).
Proof.
  intros form after.
  assert (Hq : query_bot 1 (db (platform_on fresh_host)) = Some alpha)
    by reflexivity.
  assert (Hform : NoDup form.*1).
  { apply (bool_decide_unpack _). by vm_compute. }
  destruct (env_vars_are_replaced_wholesale 1 form alpha
              (platform_on fresh_host) Hq Hform)
    as (_ & H2 & _ & _ & _ & _ & H7).
  split; [exact Hq|]. split; [|exact H7].
  fold after in H2. rewrite H2. by vm_compute.
Defined.

(** X18.  The environment handed to the container of a bot is read off
    its stored variables with the last row winning: a key is bound exactly
    when some row of the bot has it, and then to the value of the last such
    row.  Rows of other bots play no part. *)
Theorem env_dict_last_row_wins (bot : BotApp) (d : DB) (k : string) :
  env_dict bot d !! k
    = ev_value <$> last (with_key k (env_vars_of_bot (b_id bot) (env_vars d))).
Proof.
  unfold env_dict. fold (env_vars_of_bot (b_id bot) (env_vars d)).
  rewrite foldl_insert_last.
  by destruct (last _).
Qed.

(** X19.  From the form to the container.  When the environment form of
    a bot on record is saved (its fields distinct) and the bot is then
    started, on a host whose
    daemon is connected and answering and that has the image of the bot,
    the start is answered with the redirect, and the container of the bot
    runs with exactly the environment of the form: a key is set when the
    form stores a row for it, to the value of the last such row, whatever
    variables the bot had before. *)
Theorem started_bot_runs_with_saved_environment (bot_id : Z)
    (form_data : list (string * string)) (bot : BotApp) (s : Sys) :
  query_bot bot_id (db s) = Some bot →
  NoDup form_data.*1 →
  docker_client (world s) = true → faults (world s) = [] →
  is_Some (images (world s) !! get_image_name bot_id) →
  let saved := (update_env_vars bot_id form_data s).2 in
  let after := start_bot bot_id saved in
  after.1 = Ok (bot_page bot_id) ∧
  ∃ c, containers (world after.2) !! get_container_name bot_id = Some c ∧
       ∀ k, c_environment c !! k
            = ev_value <$> last (with_key k (submitted_env_vars bot_id form_data)).
Proof.
  intros Hq _ Hdc Hf Hi saved after.
  destruct (update_env_vars_state bot_id form_data bot s Hq)
    as (_ & H2 & H3 & _ & H5).
  fold saved in H2, H3, H5.
  assert (Hq' : query_bot bot_id (db saved) = Some bot).
  { unfold query_bot in *. by rewrite H3. }
  pose proof (query_bot_id _ _ _ Hq) as Hid.
  rewrite <- H5 in Hdc, Hf, Hi.
  subst after. unfold start_bot, bind, gets, in_world, call. rewrite Hq'.
  rewrite Hid.
  destruct (run_served bot_id (env_dict bot (db saved)) (b_start_command bot)
              (world saved) Hdc Hf Hi)
    as (msg & c & w' & -> & _ & _ & _ & _ & _ & Hc & Hst & _).
  cbn. split; [done|]. exists c. rewrite Hc, lookup_insert_eq. split; [done|].
  intros k. unfold running_state, wanted_state in Hst.
  assert (Henv : c_environment c = env_dict bot (db saved)) by congruence.
  rewrite Henv. unfold env_dict. rewrite foldl_insert_last, H2, Hid.
  rewrite filter_own_app.
  - by destruct (last _).
  - eapply Forall_impl; [apply submitted_belong_to_bot|]. by intros ev [? _].
Qed.

Lemma started_bot_runs_with_saved_environment_witness :
  let s := platform_on (set_images (insert "bot_1:latest" "image") fresh_host) in
  let form := [("env_key_0", "TOKEN"); ("env_value_0", "old");
               ("env_key_1", "TOKEN"); ("env_value_1", "new")] in
  let after := start_bot 1 (update_env_vars 1 form s).2 in
  ∃ c, containers (world after.2) !! "bot_1" = Some c ∧
       c_environment c !! "TOKEN" = Some "new".
Proof.
  intros s form after.
  destruct (started_bot_runs_with_saved_environment 1 form alpha s)
    as (_ & c & Hc & Hk);
    [reflexivity| |reflexivity|reflexivity|by eexists|].
  { apply (bool_decide_unpack _). by vm_compute. }
  exists c. split; [exact Hc|]. by rewrite Hk.
Defined.

(** ** Uploads *)

Lemma finalized_world n v logs s : world (finalized n v logs s) = world s.
Proof. done. Qed.

Lemma rmtree_gone d (fs : gmap string string) p :
  below d p = true →
  filter (λ kv : string * string, kv.1 ≠ d ∧ below d kv.1 = false) fs !! p
    = None.
Proof.
  intros Hp. apply map_lookup_filter_None. right. intros x _ [_ Hb].
  cbn [fst] in Hb. rewrite Hp in Hb. discriminate.
Qed.

Lemma rmtree_kept d (fs : gmap string string) p data :
  below d p = false → p ≠ d →
  filter (λ kv : string * string, kv.1 ≠ d ∧ below d kv.1 = false)
    (<[p:=data]> fs) !! p = Some data.
Proof.
  intros Hb Hne. apply map_lookup_filter_Some. split; [|done].
  apply lookup_insert_eq.
Qed.

(** X20.  An upload that is no ZIP archive is noticed too late for the old
    code.  For a bot on record whose code directory exists, with the file
    system serving every call, uploading bytes that are no archive leaves
    no file below the code directory, which is there again; the
    temporary copy of the upload is still on disk (unless it lay in the
    code directory itself), since the step that removes it is not reached;
    and the daemon is not called: containers, images and the journal are
    as before. *)
Theorem rejected_upload_has_cleared_the_code (bot_id : Z) (file : UploadFile)
    (bot : BotApp) (s : Sys) :
  query_bot bot_id (db s) = Some bot →
  faults (world s) = [] →
  archive file = None →
  b_code_path bot ∈ dirs (world s) →
  truthy (b_code_path bot) = true →
  let temp_zip := "/tmp/bot_" +:+ str bot_id +:+ "_upload.zip" in
  let after := world (upload_bot_code bot_id file s).2 in
  (∀ p, below (b_code_path bot) p = true → files after !! p = None) ∧
  (below (b_code_path bot) temp_zip = false → temp_zip ≠ b_code_path bot →
   files after !! temp_zip = Some (content file)) ∧
  b_code_path bot ∈ dirs after ∧
  containers after = containers (world s) ∧
  images after = images (world s) ∧
  journal after = journal (world s).
Proof.
  intros Hq Hf Ha Hd Ht temp_zip after.
  destruct (upload_bot_code_eq bot_id file bot s Hq) as (s1 & E1 & E).
  destruct (add_deployment_tracks bot_id s) as (s1' & E1' & Hw & _).
  assert (s1' = s1) as -> by congruence.
  subst after. rewrite E. clear E E1 E1'. cbn zeta. cbn [snd].
  unfold upload_steps. fold temp_zip.
  unfold with_logs, in_world, logs_append, unzip, shutil_rmtree, os_remove.
  assert (Hex : ∀ d, os_path_exists (b_code_path bot)
            (set_files d (world s)) = true).
  { intros d. unfold os_path_exists. apply bool_decide_eq_true_2. by right. }
  crunch with (cbn [world db fst snd]; rewrite ?Hw, ?Hf, ?Ha, ?Hex, ?Ht).
  destruct (filter _ _ !! temp_zip) eqn:Hz;
    cbn [fst snd world db]; rewrite finalized_world; fields; cbn [world].
  all: split; [apply rmtree_gone|]; split; [apply rmtree_kept|];
    split; [|done].
  all: by apply elem_of_union_r, elem_of_singleton_2.
Qed.

Lemma rejected_upload_has_cleared_the_code_witness :
  let after :=
    world (upload_bot_code 2 not_a_zip (platform_on host_with_old_code)).2 in
  files after !! "/srv/bots/beta/bot.py" = None ∧
  is_Some (files after !! "/tmp/bot_2_upload.zip").
Proof.
  intros after.
  destruct (rejected_upload_has_cleared_the_code 2 not_a_zip beta
              (platform_on host_with_old_code))
    as (Hgone & Hkept & _); [reflexivity|reflexivity|reflexivity| |reflexivity|].
  - apply (bool_decide_unpack _). by vm_compute.
  - fold after in Hgone, Hkept. split; [by apply Hgone|].
    exists (content not_a_zip). apply Hkept; [reflexivity|].
    apply (bool_decide_unpack _). by vm_compute.
Defined.

(** ** Accounts and sessions *)

Lemma query_user_by_email_app email users more :
  query_user_by_email email (users ++ more)
    = match query_user_by_email email users with
      | Some u => Some u
      | None => query_user_by_email email more
      end.
Proof.
  unfold query_user_by_email.
  induction users as [|u users IH]; cbn; [done|].
  by destruct (u_email u =? email)%string.
Qed.

Lemma query_user_by_email_Some email users user :
  query_user_by_email email users = Some user →
  user ∈ users ∧ u_email user = email.
Proof.
  unfold query_user_by_email. intros H. apply find_some in H as [Hin He].
  split; [by apply list_elem_of_In|]. by apply String.eqb_eq.
Qed.

Lemma query_user_unique users user :
  NoDup (u_id <$> users) → user ∈ users →
  query_user (u_id user) users = Some user.
Proof.
  unfold query_user. induction users as [|u users IH]; intros Hnd Hin.
  - by apply elem_of_nil in Hin.
  - cbn in Hnd. apply NoDup_cons in Hnd as [Hu Hnd]. cbn [find].
    apply elem_of_cons in Hin as [->|Hin].
    + by rewrite bool_decide_eq_true_2.
    + rewrite bool_decide_eq_false_2; [by apply IH|].
      intros E. apply Hu. rewrite E. by apply list_elem_of_fmap_2.
Qed.

(** X21.  The default administrator is created once.  After
    [create_default_admin_user] there is an account for
    admin@example.com; running it again, with whatever salt, changes
    nothing.  An administrator account that was there already is kept as
    it is, password hash included, and no query for another e-mail address
    sees a difference. *)
Theorem default_admin_is_created_once (hashpw : string → string → string)
    (salt salt' : string) (users : list User) :
  let once := create_default_admin_user hashpw salt users in
  create_default_admin_user hashpw salt' once = once ∧
  is_Some (query_user_by_email "admin@example.com" once) ∧
  query_user_by_email "admin@example.com" once
    = match query_user_by_email "admin@example.com" users with
      | Some admin => Some admin
      | None => Some {| u_id := fresh_user_id users;
                        u_email := "admin@example.com";
                        u_password_hash := hashpw "admin123" salt |}
      end ∧
  ∀ email, email ≠ "admin@example.com" →
    query_user_by_email email once = query_user_by_email email users.
Proof.
  intros once.
  assert (Hq : query_user_by_email "admin@example.com" once
    = match query_user_by_email "admin@example.com" users with
      | Some admin => Some admin
      | None => Some {| u_id := fresh_user_id users;
                        u_email := "admin@example.com";
                        u_password_hash := hashpw "admin123" salt |}
      end).
  { subst once. unfold create_default_admin_user.
    destruct (query_user_by_email _ users) as [admin|] eqn:E; [done|].
    by rewrite query_user_by_email_app, E. }
  split; [|split; [|split; [exact Hq|]]].
  - unfold create_default_admin_user at 1. rewrite Hq.
    by destruct (query_user_by_email _ users).
  - rewrite Hq. by destruct (query_user_by_email _ users).
  - intros email Hne. subst once. unfold create_default_admin_user.
    destruct (query_user_by_email "admin@example.com" users); [done|].
    rewrite query_user_by_email_app.
    destruct (query_user_by_email email users); [done|].
    unfold query_user_by_email. cbn [find u_email].
    destruct (String.eqb_spec "admin@example.com" email); [congruence|done].
Qed.

(** X22.  Logging in opens a session for the user who logged in.  When
    the credentials are accepted, user ids are unique, and the serializer
    gives back the user id it signed in a non-empty token, the login is
    answered with a redirect to the list of bots, the authentication
    dependency then resolves the session to that very user, and after a
    logout the same dependency answers 401 "Not authenticated". *)
Theorem login_opens_a_session_for_the_user
    (checkpw : string → string → bool)
    (dumps : Z → string) (loads : string → option Z)
    (users : list User) (email password : string)
    (session : gmap string string) (user : User) :
  authenticate_user checkpw users email password = Some user →
  NoDup (u_id <$> users) →
  truthy (dumps (u_id user)) = true →
  loads (dumps (u_id user)) = Some (u_id user) →
  let after := login checkpw dumps users email password session in
  after.1 = LoggedIn (RedirectResponse "/bots" 303) ∧
  get_current_user loads after.2 users = Ok user ∧
  get_current_user loads (logout after.2).2 users
    = Raise (HTTPException 401 "Not authenticated").
Proof.
  intros Ha Hnd Ht Hl after. subst after. unfold login. rewrite Ha.
  cbn [fst snd]. split; [done|]. split; [|done].
  unfold get_current_user, create_session_token, verify_session_token.
  rewrite lookup_insert_eq, Ht, Hl. cbn [negb].
  unfold authenticate_user in Ha.
  destruct (query_user_by_email email users) as [u|] eqn:E; [|done].
  destruct (negb _); [done|]. injection Ha as ->.
  apply query_user_by_email_Some in E as [Hin _].
  by rewrite (query_user_unique users user Hnd Hin).
Qed.

Lemma login_opens_a_session_for_the_user_witness :
  let users := create_default_admin_user toy_hashpw "salt$" [] in
  let admin := {| u_id := 1; u_email := "admin@example.com";
                  u_password_hash := "salt$admin123" |} in
  let after := login toy_checkpw toy_dumps users
                 "admin@example.com" "admin123" ∅ in
  get_current_user toy_loads after.2 users = Ok admin.
Proof.
  intros users admin after.
  destruct (login_opens_a_session_for_the_user toy_checkpw toy_dumps
              toy_loads users "admin@example.com" "admin123" ∅ admin)
    as (_ & H & _); [reflexivity| |reflexivity|reflexivity|exact H].
  apply (bool_decide_unpack _). by vm_compute.
Defined.

(** X23.  The login handler touches the session only for valid
    credentials: whenever the session after a login differs from the one
    before, there is a user on record with the e-mail address given whose
    password hash the password checks against, the answer is the redirect,
    and the session token is the signed id of that user. *)
Theorem session_changes_only_on_valid_credentials
    (checkpw : string → string → bool) (dumps : Z → string)
    (users : list User) (email password : string)
    (session : gmap string string) :
  let after := login checkpw dumps users email password session in
  after.2 ≠ session →
  ∃ user, user ∈ users ∧ u_email user = email ∧
          checkpw password (u_password_hash user) = true ∧
          after.1 = LoggedIn (RedirectResponse "/bots" 303) ∧
          after.2 !! "session_token" = Some (dumps (u_id user)).
Proof.
  intros after Hne. subst after. unfold login in *.
  unfold authenticate_user, verify_password in *.
  destruct (query_user_by_email email users) as [u|] eqn:E; [|done].
  destruct (checkpw password (u_password_hash u)) eqn:Hc; [|done].
  cbn [negb fst snd] in *.
  apply query_user_by_email_Some in E as [Hin He].
  exists u. repeat split; try done. apply lookup_insert_eq.
Qed.

Lemma session_changes_only_on_valid_credentials_witness :
  let users := create_default_admin_user toy_hashpw "salt$" [] in
  let after := login toy_checkpw toy_dumps users
                 "admin@example.com" "admin123" ∅ in
  ∃ user, user ∈ users ∧ after.2 !! "session_token" = Some "user-1".
Proof.
  intros users after.
  destruct (session_changes_only_on_valid_credentials toy_checkpw toy_dumps
              users "admin@example.com" "admin123" ∅)
    as (user & Hin & _ & _ & _ & Hs).
  - apply (bool_decide_unpack _). by vm_compute.
  - exists user. split; [exact Hin|]. reflexivity.
Defined.
